(** * chat_completion.py: the command-line chat inference driver

    A shallow embedding of [main] of
    [getting-started/inference/local_inference/chat_completion/chat_completion.py]
    and the properties of its driver loop.

    The script talks to the outside world only through [print], [sys.exit],
    an uncaught exception, and calls into libraries (torch, transformers,
    llama_cookbook).  A run is therefore modelled as the list of those
    observable actions, in program order, together with the way the run ends.
    The libraries are a record of functions ([Env]); a library call that can
    fail returns [Err].  *)

From Stdlib Require Import String Ascii List ZArith Bool Lia PrimFloat.
Import ListNotations.
Open Scope string_scope.
Open Scope Z_scope.
Open Scope list_scope.

(** ** Data *)

(** The script indexes what it read as a list of lists of dicts
    ([dialogs[idx][0]["content"]]); JSON values of another shape are outside
    this model.

    A turn is the dict [{"role": ..., "content": ...}] read from JSON; the
    script only ever reads its ["content"] key. *)
Definition Turn := list (string * string).

(** A dialog is a list of turns; the prompt file holds a list of dialogs. *)
Definition Dialog := list Turn.

(** [d[key]] on a dict. *)
Fixpoint dict_get (key : string) (d : Turn) : option string :=
  match d with
  | [] => None
  | (k, v) :: rest => if String.eqb k key then Some v else dict_get key rest
  end.

(** The triple [(method, is_safe, report)] every safety checker returns. *)
Definition SafetyResult := (string * bool * string)%type.

Definition sr_method (r : SafetyResult) : string := fst (fst r).
Definition sr_is_safe (r : SafetyResult) : bool := snd (fst r).
Definition sr_report (r : SafetyResult) : string := snd r.

(** A safety checker is a callable from a text to its triple.  It is taken
    to answer: a checker that throws is not modelled. *)
Definition checker := string -> SafetyResult.

(** A torch tensor of integers, as far as the script looks at it: its rows and
    the device it lives on. *)
Record tensor := { t_rows : list (list Z); t_device : string }.

(** Values that travel through keyword arguments. *)
Inductive value :=
| VNone
| VBool (b : bool)
| VInt (z : Z)
| VFloat (f : float)
| VStr (s : string)
| VTensor (t : tensor).

(** A set of keyword arguments [name=value, ...], in call order. *)
Definition kwargs_t := list (string * value).

Definition keys (kw : kwargs_t) : list string := map fst kw.

(** Exceptions that leave [main] uncaught: those the statements of the script
    raise themselves, and [LibraryError] for whatever is thrown from inside a
    library call. *)
Inductive exn :=
| AssertionError (msg : string)
| IndexError
| KeyError (key : string)
| TypeError (msg : string)
| LibraryError (what : string).

(** Result of a library call: a value, or the exception it threw. *)
Inductive res (A : Type) :=
| Ok (a : A)
| Err (what : string).
Arguments Ok {A} a.
Arguments Err {A} what.

(** ** Observable actions of a run *)

(** One constructor per call that leaves the script, with the arguments of
    the call.  [ECheck k text]: the [k]-th checker of the list is called on
    [text].  [EGenerate idx kw]: [model.generate] is called with the keyword
    arguments [kw] in the iteration of the loop whose index is [idx]; the
    index is not an argument of the call, it names the iteration the call
    belongs to. *)
Inductive event :=
| EPrint (text : string)
| EPathExists (path : string)
| EReadDialogs (path : string)
| EStdinIsatty
| EStdinReadlines
| EJsonLoads (text : string)
| EIsXpuAvailable
| ESeedXpu (seed : Z)
| ESeedCuda (seed : Z)
| ESeedTorch (seed : Z)
| ELoadModel (model_name : string) (quantization : option string)
             (use_fast_kernels : bool) (kw : kwargs_t)
| ELoadPeftModel (peft_model : string)
| EFromPretrained (model_name : string)
| EApplyChatTemplate (dialog : Dialog)
| EGetSafetyChecker (azure topics salesforce llamaguard : bool)
| ECheck (k : nat) (text : string)
| EGenerate (idx : nat) (kw : kwargs_t)
| EDecode (tokens : list Z) (skip_special_tokens : bool).

(** How a computation ends: with a value, in [sys.exit(code)], or in an
    uncaught exception. *)
Inductive result (A : Type) :=
| Ret (a : A)
| Exit (code : Z)
| Raise (e : exn).
Arguments Ret {A} a.
Arguments Exit {A} code.
Arguments Raise {A} e.

(** A computation: the actions it performed and how it ended. *)
Definition M (A : Type) := (list event * result A)%type.

Definition ret {A} (a : A) : M A := ([], Ret a).

Definition bind {A B} (m : M A) (f : A -> M B) : M B :=
  match m with
  | (t, Ret a) => let (t', r) := f a in (t ++ t', r)
  | (t, Exit c) => (t, Exit c)
  | (t, Raise e) => (t, Raise e)
  end.

Notation "x <- m ;; k" := (bind m (fun x => k))
  (at level 61, m at next level, right associativity).
Notation "m ;;; k" := (bind m (fun _ => k))
  (at level 61, right associativity).

Definition emit (e : event) : M unit := ([e], Ret tt).
Definition print (text : string) : M unit := emit (EPrint text).
Definition sys_exit {A} (code : Z) : M A := ([], Exit code).
Definition raise {A} (e : exn) : M A := ([], Raise e).

(** A library call: the action is recorded, then the call returns or throws. *)
Definition call {A} (e : event) (r : res A) : M A :=
  match r with
  | Ok a => ([e], Ret a)
  | Err what => ([e], Raise (LibraryError what))
  end.

Definition trace_of {A} (m : M A) : list event := fst m.
Definition result_of {A} (m : M A) : result A := snd m.

(** The status the operating system sees: 0 when [main] returns, the code
    given to [sys.exit], 1 for an uncaught exception. *)
Definition exit_status {A} (r : result A) : Z :=
  match r with
  | Ret _ => 0
  | Exit c => c
  | Raise _ => 1
  end.

(** [[f(x) for x in xs]] where [f] has effects. *)
Fixpoint mapM {A B} (f : A -> M B) (xs : list A) : M (list B) :=
  match xs with
  | [] => ret []
  | x :: rest =>
      y <- f x ;;
      ys <- mapM f rest ;;
      ret (y :: ys)
  end.

Definition nl : string := String (ascii_of_nat 10) EmptyString.

(** ** Command-line parameters of [main] *)

Record config := {
  model_name : string;
  peft_model : option string;
  quantization : option string;
  max_new_tokens : Z;
  min_new_tokens : Z;
  prompt_file : option string;
  seed : Z;
  safety_score_threshold : float;
  do_sample : bool;
  use_cache : bool;
  top_p : float;
  temperature : float;
  top_k : Z;
  repetition_penalty : float;
  length_penalty : Z;
  enable_azure_content_safety : bool;
  enable_sensitive_topics : bool;
  enable_saleforce_content_safety : bool;
  use_fast_kernels : bool;
  enable_llamaguard_content_safety : bool;
  kwargs : kwargs_t
}.

(** The defaults of the signature; [model_name] has none. *)
Definition default_config (name : string) : config := {|
  model_name := name;
  peft_model := None;
  quantization := None;
  max_new_tokens := 256;
  min_new_tokens := 0;
  prompt_file := None;
  seed := 42;
  safety_score_threshold := 0.5%float;
  do_sample := true;
  use_cache := true;
  top_p := 1.0%float;
  temperature := 1.0%float;
  top_k := 50;
  repetition_penalty := 1.0%float;
  length_penalty := 1;
  enable_azure_content_safety := false;
  enable_sensitive_topics := false;
  enable_saleforce_content_safety := true;
  use_fast_kernels := false;
  enable_llamaguard_content_safety := false;
  kwargs := []
|}.

(** ** The libraries and the machine the script runs on *)

Record Env := {
  model : Type;
  tokenizer : Type;
  rng : Type;
  (* os, sys, json, builtins *)
  path_exists : string -> bool;
  stdin_isatty : bool;
  stdin_readlines : list string;
  json_loads : string -> res (list Dialog);
  str_dialogs : list Dialog -> string;
  (* llama_cookbook *)
  read_dialogs_from_file : string -> res (list Dialog);
  load_model : string -> option string -> bool -> kwargs_t -> res model;
  load_peft_model : model -> string -> res model;
  get_safety_checker : bool -> bool -> bool -> bool -> res (list checker);
  (* accelerate, torch *)
  is_xpu_available : bool;
  manual_seed : Z -> res rng;
  device_present : string -> bool;
  (* transformers *)
  from_pretrained : string -> res tokenizer;
  apply_chat_template : tokenizer -> Dialog -> res (list Z);
  generate : model -> rng -> kwargs_t -> res (list Z * rng);
  decode : tokenizer -> list Z -> bool -> res string
}.

(** ** Pieces of [main] *)

(** [torch.ones_like(t)] *)
Definition ones_like (t : tensor) : tensor :=
  {| t_rows := map (map (fun _ => 1)) (t_rows t); t_device := t_device t |}.

(** [f(a=.., b=.., **extra)]: a name given twice is a [TypeError] raised by
    the call itself. *)
Definition call_kwargs (explicit extra : kwargs_t) : M kwargs_t :=
  match find (fun k => existsb (String.eqb k) (keys explicit)) (keys extra) with
  | Some k =>
      raise (TypeError ("got multiple values for keyword argument " ++ k))
  | None => ret (explicit ++ extra)
  end.

(** [dialogs[idx][0]["content"]] *)
Definition first_turn_content (dialogs : list Dialog) (idx : nat) : M string :=
  match nth_error dialogs idx with
  | None => raise IndexError
  | Some dialog =>
      match dialog with
      | [] => raise IndexError
      | turn :: _ =>
          match dict_get "content" turn with
          | None => raise (KeyError "content")
          | Some content => ret content
          end
      end
  end.

(** [[check(<text>) for check in safety_checker]]: the argument expression is
    evaluated once per checker, the [k]-th checker is then called on it. *)
Fixpoint run_checks (text : M string) (k : nat) (safety_checker : list checker)
  : M (list SafetyResult) :=
  match safety_checker with
  | [] => ret []
  | check :: rest =>
      t <- text ;;
      emit (ECheck k t) ;;;
      rs <- run_checks text (S k) rest ;;
      ret (check t :: rs)
  end.

(** [all([r[1] for r in safety_results])] *)
Definition all_safe (safety_results : list SafetyResult) : bool :=
  forallb sr_is_safe safety_results.

(** [for method, is_safe, report in safety_results:
       if not is_safe: print(method); print(report)] *)
Fixpoint report_unsafe (safety_results : list SafetyResult) : M unit :=
  match safety_results with
  | [] => ret tt
  | (method, is_safe, report) :: rest =>
      (if negb is_safe
       then print method ;;; print report
       else ret tt) ;;;
      report_unsafe rest
  end.

Definition separator : string :=
  (nl ++ "==================================" ++ nl)%string.

Section Driver.

Variable E : Env.
Variable c : config.

(** Lines 42-58: where the dialogs come from. *)
Definition dialog_source : M (list Dialog) :=
  match prompt_file c with
  | Some path =>
      emit (EPathExists path) ;;;
      (if path_exists E path
       then ret tt
       else raise (AssertionError
                     ("Provided Prompt file does not exist " ++ path)%string)) ;;;
      call (EReadDialogs path) (read_dialogs_from_file E path)
  | None =>
      emit EStdinIsatty ;;;
      if negb (stdin_isatty E) then
        emit EStdinReadlines ;;;
        let dialogs := String.concat nl (stdin_readlines E) in
        emit (EJsonLoads dialogs) ;;;
        match json_loads E dialogs with
        | Ok dialogs => ret dialogs
        | Err _ =>
            print "Could not parse json from stdin. Please provide a json file with the user prompts. Exiting." ;;;
            sys_exit 1
        end
      else
        print "No user prompt provided. Exiting." ;;;
        sys_exit 1
  end.

(** Lines 64-68: seeding.  The device call only records the seed for a
    device that is not initialised yet; [torch.manual_seed] sets it at once
    and throws for a seed it cannot take. *)
Definition set_seeds : M (rng E) :=
  emit EIsXpuAvailable ;;;
  (if is_xpu_available E
   then emit (ESeedXpu (seed c))
   else emit (ESeedCuda (seed c))) ;;;
  call (ESeedTorch (seed c)) (manual_seed E (seed c)).

(** Lines 70-74: the model, the adapter when [peft_model] is truthy, the
    tokenizer. *)
Definition load_runtime : M (model E * tokenizer E) :=
  m <- call (ELoadModel (model_name c) (quantization c) (use_fast_kernels c)
                        (kwargs c))
            (load_model E (model_name c) (quantization c) (use_fast_kernels c)
                        (kwargs c)) ;;
  m <- match peft_model c with
       | Some p =>
           if String.eqb p "" then ret m
           else call (ELoadPeftModel p) (load_peft_model E m p)
       | None => ret m
       end ;;
  tok <- call (EFromPretrained (model_name c)) (from_pretrained E (model_name c)) ;;
  ret (m, tok).

(** The keyword arguments written out in the call of [model.generate]. *)
Definition generate_explicit (tokens attention_mask : tensor) : kwargs_t :=
  [ ("input_ids", VTensor tokens);
    ("attention_mask", VTensor attention_mask);
    ("max_new_tokens", VInt (max_new_tokens c));
    ("do_sample", VBool (do_sample c));
    ("top_p", VFloat (top_p c));
    ("temperature", VFloat (temperature c));
    ("use_cache", VBool (use_cache c));
    ("top_k", VInt (top_k c));
    ("repetition_penalty", VFloat (repetition_penalty c));
    ("length_penalty", VInt (length_penalty c)) ].

(** [t.to(device)] *)
Definition tensor_to (t : tensor) (device : string) : M tensor :=
  if device_present E device
  then ret {| t_rows := t_rows t; t_device := device |}
  else raise (LibraryError "torch").

(** Lines 86-99: the safety check of the user prompt.  Returns when the
    prompt is deemed safe, exits the program otherwise. *)
Definition input_check (dialogs : list Dialog) (idx : nat)
    (safety_checker : list checker) : M unit :=
  safety_results <- run_checks (first_turn_content dialogs idx) 0 safety_checker ;;
  let are_safe := all_safe safety_results in
  if are_safe then
    print "User prompt deemed safe." ;;;
    content <- first_turn_content dialogs idx ;;
    print ("User prompt:" ++ nl ++ " " ++ content)%string ;;;
    print separator
  else
    print "User prompt deemed unsafe." ;;;
    report_unsafe safety_results ;;;
    print "Skipping the inferece as the prompt is not safe." ;;;
    sys_exit 1.

(** Lines 124-136: the safety check of the model output.  Always returns. *)
Definition output_check (output_text : string) (safety_checker : list checker)
  : M unit :=
  safety_results <- run_checks (ret output_text) 0 safety_checker ;;
  let are_safe := all_safe safety_results in
  if are_safe then
    print "User input and model output deemed safe." ;;;
    print ("Model output:" ++ nl ++ output_text)%string ;;;
    print separator
  else
    print "Model output deemed unsafe." ;;;
    report_unsafe safety_results.

(** Lines 100-121: one call of [model.generate] and the decoding of its
    first row. *)
Definition generate_text (m : model E) (tok : tokenizer E) (g : rng E)
    (idx : nat) (chat : list Z) : M (string * rng E) :=
  let tokens := {| t_rows := [chat]; t_device := "cpu" |} in
  let attention_mask := ones_like tokens in
  emit EIsXpuAvailable ;;;
  tokens <- (if is_xpu_available E
             then tensor_to tokens "xpu:0"
             else tensor_to tokens "cuda:0") ;;
  kw <- call_kwargs (generate_explicit tokens attention_mask) (kwargs c) ;;
  out <- call (EGenerate idx kw) (generate E m g kw) ;;
  let (outputs0, g') := out in
  output_text <- call (EDecode outputs0 true) (decode E tok outputs0 true) ;;
  ret (output_text, g').

(** Lines 80-136: the body of the loop for one [idx, chat]. *)
Definition step (m : model E) (tok : tokenizer E) (dialogs : list Dialog)
    (g : rng E) (idx : nat) (chat : list Z) : M (rng E) :=
  safety_checker <-
    call (EGetSafetyChecker (enable_azure_content_safety c)
                            (enable_sensitive_topics c)
                            (enable_saleforce_content_safety c)
                            (enable_llamaguard_content_safety c))
         (get_safety_checker E (enable_azure_content_safety c)
                               (enable_sensitive_topics c)
                               (enable_saleforce_content_safety c)
                               (enable_llamaguard_content_safety c)) ;;
  input_check dialogs idx safety_checker ;;;
  out <- generate_text m tok g idx chat ;;
  let (output_text, g') := out in
  output_check output_text safety_checker ;;;
  ret g'.

(** Line 79: [for idx, chat in enumerate(chats)]. *)
Fixpoint driver_loop (m : model E) (tok : tokenizer E) (dialogs : list Dialog)
    (g : rng E) (idx : nat) (chats : list (list Z)) : M (rng E) :=
  match chats with
  | [] => ret g
  | chat :: rest =>
      g' <- step m tok dialogs g idx chat ;;
      driver_loop m tok dialogs g' (S idx) rest
  end.

(** Lines 76-136: templating of every dialog, then the loop. *)
Definition generation_driver (m : model E) (tok : tokenizer E)
    (dialogs : list Dialog) (g : rng E) : M (rng E) :=
  chats <- mapM (fun dialog => call (EApplyChatTemplate dialog)
                                    (apply_chat_template E tok dialog))
                dialogs ;;
  driver_loop m tok dialogs g 0 chats.

(** The whole of [main]. *)
Definition main : M unit :=
  dialogs <- dialog_source ;;
  print ("User dialogs:" ++ nl ++ str_dialogs E dialogs)%string ;;;
  print separator ;;;
  g <- set_seeds ;;
  mt <- load_runtime ;;
  let (m, tok) := mt in
  generation_driver m tok dialogs g ;;;
  ret tt.

End Driver.

(** ** Vocabulary for statements about traces *)

(** The calls of the checkers number [k], [k+1], ... on one text. *)
Definition check_events (k : nat) (text : string) (cs : list checker)
  : list event :=
  map (fun i => ECheck i text) (seq k (length cs)).

(** What the checkers answer on a text. *)
Definition verdicts (text : string) (cs : list checker) : list SafetyResult :=
  map (fun check => check text) cs.

(** The lines printed for the failing results: identifier, then report. *)
Definition unsafe_reports (rs : list SafetyResult) : list event :=
  flat_map (fun r => if sr_is_safe r then []
                     else [EPrint (sr_method r); EPrint (sr_report r)]) rs.

(** The loop indices at which [model.generate] was called, in call order. *)
Definition generated (t : list event) : list nat :=
  flat_map (fun e => match e with EGenerate i _ => [i] | _ => [] end) t.

(** Whether the model was asked to load. *)
Definition loads_model (t : list event) : bool :=
  existsb (fun e => match e with ELoadModel _ _ _ _ => true | _ => false end) t.

(** The safety checkers the flags of [c] enable, when they can be built. *)
Definition enabled_checkers (E : Env) (c : config) : res (list checker) :=
  get_safety_checker E (enable_azure_content_safety c)
                       (enable_sensitive_topics c)
                       (enable_saleforce_content_safety c)
                       (enable_llamaguard_content_safety c).

(** The content of the first turn of dialog [idx], when there is one. *)
Definition prompt_of (dialogs : list Dialog) (idx : nat) : option string :=
  match nth_error dialogs idx with
  | Some (turn :: _) => dict_get "content" turn
  | _ => None
  end.

(** The device the tokens are moved to. *)
Definition device (E : Env) : string :=
  if is_xpu_available E then "xpu:0" else "cuda:0".

(** The names written out in the call of [model.generate]. *)
Definition generate_keys : list string :=
  [ "input_ids"; "attention_mask"; "max_new_tokens"; "do_sample"; "top_p";
    "temperature"; "use_cache"; "top_k"; "repetition_penalty";
    "length_penalty" ].

(** Some extra keyword argument repeats a name written out in the call. *)
Definition kwargs_clash (c : config) : bool :=
  existsb (fun k => existsb (String.eqb k) generate_keys) (keys (kwargs c)).

(** The statements between the input check and [model.generate] go through:
    the device exists and the keyword arguments bind. *)
Definition can_call_generate (E : Env) (c : config) : bool :=
  device_present E (device E) && negb (kwargs_clash c).

(** Every enabled checker reports the first-turn content of dialog [idx]
    safe. *)
Definition prompt_passes (E : Env) (c : config) (dialogs : list Dialog)
    (idx : nat) : bool :=
  match enabled_checkers E c, prompt_of dialogs idx with
  | Ok cs, Some text => all_safe (verdicts text cs)
  | _, _ => false
  end.

(** What the input check prints when the prompt is deemed safe. *)
Definition safe_prompt_lines (text : string) : list event :=
  [ EPrint "User prompt deemed safe.";
    EPrint ("User prompt:" ++ nl ++ " " ++ text)%string;
    EPrint separator ].

(** What the input check prints before it exits. *)
Definition unsafe_prompt_lines (rs : list SafetyResult) : list event :=
  EPrint "User prompt deemed unsafe." :: unsafe_reports rs
  ++ [EPrint "Skipping the inferece as the prompt is not safe."].

(** What the output check prints after the checkers ran. *)
Definition output_lines (text : string) (rs : list SafetyResult) : list event :=
  if all_safe rs
  then [ EPrint "User input and model output deemed safe.";
         EPrint ("Model output:" ++ nl ++ text)%string;
         EPrint separator ]
  else EPrint "Model output deemed unsafe." :: unsafe_reports rs.

(** The keyword arguments [model.generate] is called with for [chat]. *)
Definition generate_kwargs (E : Env) (c : config) (chat : list Z) : kwargs_t :=
  generate_explicit c {| t_rows := [chat]; t_device := device E |}
                      (ones_like {| t_rows := [chat]; t_device := "cpu" |})
  ++ kwargs c.

(** The call that builds the checkers from the flags of [c]. *)
Definition checker_event (c : config) : event :=
  EGetSafetyChecker (enable_azure_content_safety c)
                    (enable_sensitive_topics c)
                    (enable_saleforce_content_safety c)
                    (enable_llamaguard_content_safety c).

(** The chats of line 76, when every dialog can be templated. *)
Fixpoint chats_of (E : Env) (tok : tokenizer E) (dialogs : list Dialog)
  : option (list (list Z)) :=
  match dialogs with
  | [] => Some []
  | dialog :: rest =>
      match apply_chat_template E tok dialog, chats_of E tok rest with
      | Ok chat, Some chats => Some (chat :: chats)
      | _, _ => None
      end
  end.

(** The way a computation ends, its value forgotten. *)
Definition ending {A} (r : result A) : result unit :=
  match r with
  | Ret _ => Ret tt
  | Exit code => Exit code
  | Raise e => Raise e
  end.

(** What [main] does between reading the dialogs and loading the model. *)
Definition preamble (E : Env) (c : config) (dialogs : list Dialog)
  : list event :=
  [ EPrint ("User dialogs:" ++ nl ++ str_dialogs E dialogs)%string;
    EPrint separator;
    EIsXpuAvailable;
    if is_xpu_available E then ESeedXpu (seed c) else ESeedCuda (seed c);
    ESeedTorch (seed c) ].

(** [c] with another value for [safety_score_threshold]. *)
Definition with_safety_score_threshold (x : float) (c : config) : config := {|
  model_name := model_name c;
  peft_model := peft_model c;
  quantization := quantization c;
  max_new_tokens := max_new_tokens c;
  min_new_tokens := min_new_tokens c;
  prompt_file := prompt_file c;
  seed := seed c;
  safety_score_threshold := x;
  do_sample := do_sample c;
  use_cache := use_cache c;
  top_p := top_p c;
  temperature := temperature c;
  top_k := top_k c;
  repetition_penalty := repetition_penalty c;
  length_penalty := length_penalty c;
  enable_azure_content_safety := enable_azure_content_safety c;
  enable_sensitive_topics := enable_sensitive_topics c;
  enable_saleforce_content_safety := enable_saleforce_content_safety c;
  use_fast_kernels := use_fast_kernels c;
  enable_llamaguard_content_safety := enable_llamaguard_content_safety c;
  kwargs := kwargs c
|}.

(** Two command lines that differ at most in [safety_score_threshold]: they
    are equal once that parameter is overwritten. *)
Definition same_but_threshold (c1 c2 : config) : Prop :=
  with_safety_score_threshold 0%float c1 = with_safety_score_threshold 0%float c2.

(** [c] with another value for [min_new_tokens]. *)
Definition with_min_new_tokens (n : Z) (c : config) : config := {|
  model_name := model_name c;
  peft_model := peft_model c;
  quantization := quantization c;
  max_new_tokens := max_new_tokens c;
  min_new_tokens := n;
  prompt_file := prompt_file c;
  seed := seed c;
  safety_score_threshold := safety_score_threshold c;
  do_sample := do_sample c;
  use_cache := use_cache c;
  top_p := top_p c;
  temperature := temperature c;
  top_k := top_k c;
  repetition_penalty := repetition_penalty c;
  length_penalty := length_penalty c;
  enable_azure_content_safety := enable_azure_content_safety c;
  enable_sensitive_topics := enable_sensitive_topics c;
  enable_saleforce_content_safety := enable_saleforce_content_safety c;
  use_fast_kernels := use_fast_kernels c;
  enable_llamaguard_content_safety := enable_llamaguard_content_safety c;
  kwargs := kwargs c
|}.

(** The calls of [model.generate] in a trace. *)
Definition generate_calls (t : list event) : list event :=
  filter (fun e => match e with EGenerate _ _ => true | _ => false end) t.

(** ** A small concrete machine on which the statements are run *)

(** Modelled from the spec: [get_safety_checker] lives in
    [llama_cookbook.inference.safety_utils], which is not part of the source
    at hand.  Section 4.2: "given an enabled-checker configuration (a set of
    independent boolean flags selecting zero or more checker backends),
    construct an ordered list of checker capabilities".  The four backends are
    taken in the order of the flags in the call. *)
Definition get_safety_checker_spec (ca ct cs cl : checker)
    (azure topics salesforce llamaguard : bool) : list checker :=
  (if azure then [ca] else []) ++
  (if topics then [ct] else []) ++
  (if salesforce then [cs] else []) ++
  (if llamaguard then [cl] else []).

(** [torch.manual_seed] of the demo machines: the seed is the state, and a
    seed outside [-2^63, 2^64) is refused. *)
Definition torch_manual_seed (s : Z) : res Z :=
  if (- 2 ^ 63 <=? s) && (s <? 2 ^ 64) then Ok s
  else Err "RuntimeError: Overflow when unpacking long".

(** A checker that flags every text in which [word] occurs. *)
Definition keyword_checker (method word : string) : checker :=
  fun text =>
    match String.index 0 word text with
    | Some _ => (method, false, ("found: " ++ word)%string)
    | None => (method, true, "")
    end.

Definition demo_dialogs : list Dialog :=
  [ [ [("role", "user"); ("content", "hello")] ];
    [ [("role", "user"); ("content", "plan an attack")];
      [("role", "assistant"); ("content", "no")] ];
    [ [("role", "user"); ("content", "bye")] ] ].

(** A machine with a CUDA device, a prompt file [prompts.json] holding
    [file_dialogs], standard input [lines] (a terminal when [tty]), and a
    model whose every answer decodes to [reply]. *)
Definition demo_env (tty : bool) (lines : list string)
    (file_dialogs : list Dialog) (reply : string) : Env := {|
  model := unit;
  tokenizer := unit;
  rng := Z;
  path_exists := fun p => String.eqb p "prompts.json";
  stdin_isatty := tty;
  stdin_readlines := lines;
  json_loads := fun s =>
    if String.eqb s "[]" then Ok [] else Err "JSONDecodeError";
  str_dialogs := fun ds => "<dialogs>";
  read_dialogs_from_file := fun _ => Ok file_dialogs;
  load_model := fun _ _ _ _ => Ok tt;
  load_peft_model := fun _ _ => Ok tt;
  get_safety_checker := fun a t s l =>
    Ok (get_safety_checker_spec
          (keyword_checker "Azure Content Saftey API" "hate")
          (keyword_checker "Sensitive Topics" "politics")
          (keyword_checker "Salesforce Content Safety Flan T5 Base" "attack")
          (keyword_checker "Llama Guard" "attack")
          a t s l);
  is_xpu_available := false;
  manual_seed := torch_manual_seed;
  device_present := fun d => String.eqb d "cuda:0";
  from_pretrained := fun _ => Ok tt;
  apply_chat_template := fun _ d => Ok (map (fun _ => 7) d);
  generate := fun _ g kw => Ok ([1; 2; 3], g + 1);
  decode := fun _ _ _ => Ok reply
|}.

Definition demo_config : config :=
  {| model_name := "llama";
     peft_model := None;
     quantization := None;
     max_new_tokens := 256;
     min_new_tokens := 0;
     prompt_file := Some "prompts.json";
     seed := 42;
     safety_score_threshold := 0.5%float;
     do_sample := true;
     use_cache := true;
     top_p := 1.0%float;
     temperature := 1.0%float;
     top_k := 50;
     repetition_penalty := 1.0%float;
     length_penalty := 1;
     enable_azure_content_safety := false;
     enable_sensitive_topics := false;
     enable_saleforce_content_safety := true;
     use_fast_kernels := false;
     enable_llamaguard_content_safety := true;
     kwargs := [] |}.

(** The checkers [demo_config] enables on the demo machine. *)
Definition demo_checkers : list checker :=
  [ keyword_checker "Salesforce Content Safety Flan T5 Base" "attack";
    keyword_checker "Llama Guard" "attack" ].

(** The defaults, with a prompt file that is not there. *)
Definition missing_file_config : config :=
  {| model_name := "llama";
     peft_model := None;
     quantization := None;
     max_new_tokens := 256;
     min_new_tokens := 0;
     prompt_file := Some "nowhere.json";
     seed := 42;
     safety_score_threshold := 0.5%float;
     do_sample := true;
     use_cache := true;
     top_p := 1.0%float;
     temperature := 1.0%float;
     top_k := 50;
     repetition_penalty := 1.0%float;
     length_penalty := 1;
     enable_azure_content_safety := false;
     enable_sensitive_topics := false;
     enable_saleforce_content_safety := true;
     use_fast_kernels := false;
     enable_llamaguard_content_safety := false;
     kwargs := [] |}.

(** ** Kinds of actions *)

(** Standard input is consulted. *)
Definition is_stdin_event (e : event) : bool :=
  match e with
  | EStdinIsatty | EStdinReadlines | EJsonLoads _ => true
  | _ => false
  end.

(** The file system is consulted. *)
Definition is_file_event (e : event) : bool :=
  match e with
  | EPathExists _ | EReadDialogs _ => true
  | _ => false
  end.

(** A random number generator is seeded. *)
Definition is_seed_event (e : event) : bool :=
  match e with
  | ESeedXpu _ | ESeedCuda _ | ESeedTorch _ => true
  | _ => false
  end.

(** [load_model] is called. *)
Definition is_load_model (e : event) : bool :=
  match e with
  | ELoadModel _ _ _ _ => true
  | _ => false
  end.


(** The checkers are built. *)
Definition is_get_safety_checker (e : event) : bool :=
  match e with
  | EGetSafetyChecker _ _ _ _ => true
  | _ => false
  end.

(** A line is printed. *)
Definition is_print (e : event) : bool :=
  match e with
  | EPrint _ => true
  | _ => false
  end.

(** What happens only once the model is loaded: the adapter and the
    tokenizer are loaded, dialogs are templated and screened, text is
    generated and decoded. *)
Definition after_load_model (e : event) : bool :=
  match e with
  | ELoadPeftModel _ | EFromPretrained _ | EApplyChatTemplate _
  | EGetSafetyChecker _ _ _ _ | ECheck _ _ | EGenerate _ _ | EDecode _ _ => true
  | _ => false
  end.

(** The actions of lines 42-58. *)
Definition source_event (e : event) : bool :=
  is_stdin_event e || is_file_event e || is_print e.

(** The actions of lines 60-68. *)
Definition preamble_event (e : event) : bool :=
  match e with
  | EPrint _ | EIsXpuAvailable => true
  | _ => is_seed_event e
  end.

(** The actions of lines 70-74. *)
Definition load_event (e : event) : bool :=
  match e with
  | ELoadModel _ _ _ _ | ELoadPeftModel _ | EFromPretrained _ => true
  | _ => false
  end.

(** The actions of lines 76-136. *)
Definition driver_event (e : event) : bool :=
  match e with
  | EApplyChatTemplate _ | EGetSafetyChecker _ _ _ _ | ECheck _ _ | EPrint _
  | EIsXpuAvailable | EGenerate _ _ | EDecode _ _ => true
  | _ => false
  end.

(** The last line printed before the run is given up on an unsafe prompt. *)
Definition skipping_line : string :=
  "Skipping the inferece as the prompt is not safe.".

(** A trace read from the left, [loaded] telling whether [load_model] was
    called so far: [load_model] is not called twice, and what needs the
    model does not come before it. *)
Fixpoint model_protocol (loaded : bool) (t : list event) : bool :=
  match t with
  | [] => true
  | e :: rest =>
      if is_load_model e then negb loaded && model_protocol true rest
      else if after_load_model e then loaded && model_protocol loaded rest
      else model_protocol loaded rest
  end.

(** [demo_config] with an adapter. *)
Definition adapter_config (adapter : option string) : config :=
  {| model_name := "llama";
     peft_model := adapter;
     quantization := None;
     max_new_tokens := 256;
     min_new_tokens := 0;
     prompt_file := Some "prompts.json";
     seed := 42;
     safety_score_threshold := 0.5%float;
     do_sample := true;
     use_cache := true;
     top_p := 1.0%float;
     temperature := 1.0%float;
     top_k := 50;
     repetition_penalty := 1.0%float;
     length_penalty := 1;
     enable_azure_content_safety := false;
     enable_sensitive_topics := false;
     enable_saleforce_content_safety := true;
     use_fast_kernels := false;
     enable_llamaguard_content_safety := true;
     kwargs := [] |}.

(** The actions of the screening: the checkers are built, a checker is
    called, an output is decoded. *)
Definition is_screening_event (e : event) : bool :=
  match e with
  | EGetSafetyChecker _ _ _ _ | ECheck _ _ | EDecode _ _ => true
  | _ => false
  end.



(** [kw[name]] on keyword arguments. *)
Fixpoint kw_get (name : string) (kw : kwargs_t) : option value :=
  match kw with
  | [] => None
  | (k, v) :: rest => if String.eqb k name then Some v else kw_get name rest
  end.

(** A machine like [demo_env] reading [file_dialogs] from [prompts.json],
    whose tokenizer, model and devices are given: [template] and [dec] are
    the tokenizer, [gen] is the model, [cuda] tells whether [cuda:0] is
    there.  The model and the tokenizer are loaded when [loads] holds. *)
Definition lab_env (file_dialogs : list Dialog)
    (template : Dialog -> res (list Z)) (gen : Z -> res (list Z * Z))
    (dec : list Z -> res string) (cuda loads : bool) : Env := {|
  model := unit;
  tokenizer := unit;
  rng := Z;
  path_exists := fun p => String.eqb p "prompts.json";
  stdin_isatty := false;
  stdin_readlines := ["[]"];
  json_loads := fun s =>
    if String.eqb s "[]" then Ok [] else Err "JSONDecodeError";
  str_dialogs := fun ds => "<dialogs>";
  read_dialogs_from_file := fun _ => Ok file_dialogs;
  load_model := fun _ _ _ _ => if loads then Ok tt else Err "OSError";
  load_peft_model := fun _ _ => Ok tt;
  get_safety_checker := fun a t s l =>
    Ok (get_safety_checker_spec
          (keyword_checker "Azure Content Saftey API" "hate")
          (keyword_checker "Sensitive Topics" "politics")
          (keyword_checker "Salesforce Content Safety Flan T5 Base" "attack")
          (keyword_checker "Llama Guard" "attack")
          a t s l);
  is_xpu_available := false;
  manual_seed := torch_manual_seed;
  device_present := fun d => cuda && String.eqb d "cuda:0";
  from_pretrained := fun _ => Ok tt;
  apply_chat_template := fun _ d => template d;
  generate := fun _ g kw => gen g;
  decode := fun _ toks _ => dec toks
|}.

(** A machine like [demo_env] reading [demo_dialogs], without a CUDA
    device. *)
Definition cpu_only_env : Env :=
  lab_env demo_dialogs (fun d => Ok (map (fun _ => 7) d))
          (fun g => Ok ([1; 2; 3], g + 1)) (fun _ => Ok "fine") false true.

(** [c] with another [seed]. *)
Definition with_seed (x : Z) (c : config) : config := {|
  model_name := model_name c;
  peft_model := peft_model c;
  quantization := quantization c;
  max_new_tokens := max_new_tokens c;
  min_new_tokens := min_new_tokens c;
  prompt_file := prompt_file c;
  seed := x;
  safety_score_threshold := safety_score_threshold c;
  do_sample := do_sample c;
  use_cache := use_cache c;
  top_p := top_p c;
  temperature := temperature c;
  top_k := top_k c;
  repetition_penalty := repetition_penalty c;
  length_penalty := length_penalty c;
  enable_azure_content_safety := enable_azure_content_safety c;
  enable_sensitive_topics := enable_sensitive_topics c;
  enable_saleforce_content_safety := enable_saleforce_content_safety c;
  use_fast_kernels := use_fast_kernels c;
  enable_llamaguard_content_safety := enable_llamaguard_content_safety c;
  kwargs := kwargs c
|}.

(** * Lemmas *)

(** ** The monad *)

Lemma bind_ret_l A B (a : A) (f : A -> M B) : bind (ret a) f = f a.
Proof. unfold bind, ret. destruct (f a). reflexivity. Qed.

Lemma bind_Ret A B (t : list event) (a : A) (f : A -> M B) :
  bind (t, Ret a) f = (t ++ trace_of (f a), result_of (f a)).
Proof. unfold bind, trace_of, result_of. destruct (f a). reflexivity. Qed.

Lemma bind_Exit A B (t : list event) (code : Z) (f : A -> M B) :
  bind (t, Exit code) f = (t, Exit code).
Proof. reflexivity. Qed.

Lemma bind_Raise A B (t : list event) (e : exn) (f : A -> M B) :
  bind (t, Raise e) f = (t, Raise e).
Proof. reflexivity. Qed.

Lemma bind_assoc A B C (m : M A) (f : A -> M B) (h : B -> M C) :
  bind (bind m f) h = bind m (fun a => bind (f a) h).
Proof.
  destruct m as [t [a | code | e]]; try reflexivity.
  unfold bind at 2 3. destruct (f a) as [t1 [b | code | e]]; cbn.
  - destruct (h b) as [t2 r]. now rewrite app_assoc.
  - reflexivity.
  - reflexivity.
Qed.

Lemma bind_ext A B (m : M A) (f h : A -> M B) :
  (forall a, f a = h a) -> bind m f = bind m h.
Proof.
  intro H. destruct m as [t [a | code | e]]; try reflexivity.
  unfold bind. now rewrite H.
Qed.

Lemma surjective_M A (m : M A) : m = (trace_of m, result_of m).
Proof. now destruct m. Qed.

(** A computation that returns is followed by its continuation. *)
Lemma bind_returns A B (m : M A) (f : A -> M B) t (b : B) :
  bind m f = (t, Ret b) ->
  exists t1 a t2, m = (t1, Ret a) /\ f a = (t2, Ret b) /\ t = t1 ++ t2.
Proof.
  destruct m as [t1 [a | code | e]]; cbn; try discriminate.
  destruct (f a) as [t2 r] eqn:Hf. intros [= <- ->].
  now exists t1, a, t2.
Qed.

Lemma trace_bind A B (m : M A) (f : A -> M B) :
  trace_of (bind m f)
  = trace_of m ++ match result_of m with
                  | Ret a => trace_of (f a)
                  | _ => []
                  end.
Proof.
  destruct m as [t [a | code | e]]; cbn [trace_of result_of fst snd].
  - now rewrite bind_Ret.
  - now rewrite bind_Exit, app_nil_r.
  - now rewrite bind_Raise, app_nil_r.
Qed.

Lemma result_bind A B (m : M A) (f : A -> M B) :
  result_of (bind m f)
  = match result_of m with
    | Ret a => result_of (f a)
    | Exit code => Exit code
    | Raise e => Raise e
    end.
Proof.
  destruct m as [t [a | code | e]]; cbn [trace_of result_of fst snd].
  - now rewrite bind_Ret.
  - reflexivity.
  - reflexivity.
Qed.

Lemma generated_app (t1 t2 : list event) :
  generated (t1 ++ t2) = generated t1 ++ generated t2.
Proof. unfold generated. apply flat_map_app. Qed.

Lemma generated_cons (e : event) (t : list event) :
  generated (e :: t) = generated [e] ++ generated t.
Proof. exact (generated_app [e] t). Qed.

(** ** The checker comprehension and the reports *)

Lemma run_checks_ret (text : string) (cs : list checker) (k : nat) :
  run_checks (ret text) k cs = (check_events k text cs, Ret (verdicts text cs)).
Proof.
  revert k. induction cs as [| check rest IH]; intro k.
  - reflexivity.
  - cbn [run_checks]. rewrite bind_ret_l. unfold emit.
    rewrite bind_Ret, IH, bind_Ret. cbn [trace_of result_of ret fst snd].
    rewrite app_nil_r. reflexivity.
Qed.

Lemma report_unsafe_eq (rs : list SafetyResult) :
  report_unsafe rs = (unsafe_reports rs, Ret tt).
Proof.
  induction rs as [| [[method is_safe] report] rest IH].
  - reflexivity.
  - cbn [report_unsafe]. rewrite IH.
    destruct is_safe; reflexivity.
Qed.

Lemma all_safe_and (text : string) (cs : list checker) :
  all_safe (verdicts text cs)
  = fold_right andb true (map (fun check => sr_is_safe (check text)) cs).
Proof.
  unfold all_safe, verdicts.
  induction cs as [| check rest IH]; cbn; [reflexivity | now rewrite IH].
Qed.

Lemma all_safe_Forall (text : string) (cs : list checker) :
  all_safe (verdicts text cs) = true
  <-> Forall (fun check => sr_is_safe (check text) = true) cs.
Proof.
  unfold all_safe, verdicts. rewrite forallb_forall, Forall_forall. split.
  - intros H check Hin. apply H, in_map_iff. now exists check.
  - intros H r Hin. apply in_map_iff in Hin as [check [<- Hin]]. now apply H.
Qed.

Lemma all_safe_Exists (text : string) (cs : list checker) :
  Exists (fun check => sr_is_safe (check text) = false) cs ->
  all_safe (verdicts text cs) = false.
Proof.
  intro H. destruct (all_safe (verdicts text cs)) eqn:Hs; [| reflexivity].
  apply all_safe_Forall in Hs. apply Exists_exists in H as [check [Hin Hc]].
  rewrite Forall_forall in Hs. specialize (Hs check Hin). congruence.
Qed.

Lemma generated_check_events k text cs :
  generated (check_events k text cs) = [].
Proof.
  unfold check_events. generalize (seq k (length cs)) as l.
  induction l as [| i l IH]; [reflexivity | exact IH].
Qed.

Lemma generated_unsafe_reports rs : generated (unsafe_reports rs) = [].
Proof.
  induction rs as [| r rest IH]; [reflexivity |].
  cbn. destruct (sr_is_safe r); cbn; exact IH.
Qed.

(** ** The first-turn access *)

Lemma first_turn_content_Some (dialogs : list Dialog) idx text :
  prompt_of dialogs idx = Some text ->
  first_turn_content dialogs idx = ret text.
Proof.
  unfold prompt_of, first_turn_content.
  destruct (nth_error dialogs idx) as [[| turn more] |]; try discriminate.
  now intros ->.
Qed.

Lemma first_turn_content_None (dialogs : list Dialog) idx :
  prompt_of dialogs idx = None ->
  exists e, first_turn_content dialogs idx = raise e
            /\ (e = IndexError \/ e = KeyError "content").
Proof.
  unfold prompt_of, first_turn_content.
  destruct (nth_error dialogs idx) as [[| turn more] |].
  - intros _. exists IndexError. auto.
  - intros ->. exists (KeyError "content"). auto.
  - intros _. exists IndexError. auto.
Qed.

Lemma first_turn_content_empty (dialogs : list Dialog) idx :
  nth_error dialogs idx = Some [] ->
  first_turn_content dialogs idx = raise IndexError.
Proof. unfold first_turn_content. now intros ->. Qed.

Section DriverFacts.

Variable E : Env.
Variable c : config.

(** ** The input check *)

Lemma input_check_safe (dialogs : list Dialog) idx text cs :
  prompt_of dialogs idx = Some text ->
  all_safe (verdicts text cs) = true ->
  input_check dialogs idx cs
  = (check_events 0 text cs ++ safe_prompt_lines text, Ret tt).
Proof.
  intros Hp Hs. unfold input_check.
  rewrite (first_turn_content_Some _ _ _ Hp), run_checks_ret, bind_Ret.
  cbn [trace_of result_of fst snd]. rewrite Hs. reflexivity.
Qed.

Lemma input_check_unsafe (dialogs : list Dialog) idx text cs :
  prompt_of dialogs idx = Some text ->
  all_safe (verdicts text cs) = false ->
  input_check dialogs idx cs
  = (check_events 0 text cs ++ unsafe_prompt_lines (verdicts text cs), Exit 1).
Proof.
  intros Hp Hs. unfold input_check.
  rewrite (first_turn_content_Some _ _ _ Hp), run_checks_ret, bind_Ret.
  cbn [trace_of result_of fst snd]. rewrite Hs.
  unfold print, emit. rewrite bind_Ret, report_unsafe_eq, bind_Ret.
  reflexivity.
Qed.

Lemma input_check_no_prompt (dialogs : list Dialog) idx cs :
  prompt_of dialogs idx = None ->
  exists e, (e = IndexError \/ e = KeyError "content")
    /\ first_turn_content dialogs idx = raise e
    /\ input_check dialogs idx cs
       = (match cs with
          | [] => [EPrint "User prompt deemed safe."]
          | _ :: _ => []
          end, Raise e).
Proof.
  intro Hp. destruct (first_turn_content_None _ _ Hp) as [e [He Hk]].
  exists e. split; [exact Hk |]. split; [exact He |].
  unfold input_check. rewrite He. destruct cs as [| check rest].
  - reflexivity.
  - reflexivity.
Qed.

End DriverFacts.

Section StepFacts.

Variable E : Env.
Variable c : config.

(** ** The output check *)

Lemma output_check_eq (text : string) (cs : list checker) :
  output_check text cs
  = (check_events 0 text cs ++ output_lines text (verdicts text cs), Ret tt).
Proof.
  unfold output_check, output_lines.
  rewrite run_checks_ret, bind_Ret. cbn [trace_of result_of fst snd].
  destruct (all_safe (verdicts text cs)).
  - reflexivity.
  - unfold print, emit. rewrite bind_Ret, report_unsafe_eq. reflexivity.
Qed.

(** ** The call of [model.generate] *)

Lemma find_existsb {A} (f : A -> bool) (l : list A) :
  existsb f l = match find f l with Some _ => true | None => false end.
Proof.
  induction l as [| a l IH]; [reflexivity |].
  cbn. destruct (f a); [reflexivity | exact IH].
Qed.

Lemma call_kwargs_ok (tokens attention_mask : tensor) :
  kwargs_clash c = false ->
  call_kwargs (generate_explicit c tokens attention_mask) (kwargs c)
  = ret (generate_explicit c tokens attention_mask ++ kwargs c).
Proof.
  unfold kwargs_clash, call_kwargs. rewrite find_existsb.
  change (keys (generate_explicit c tokens attention_mask)) with generate_keys.
  destruct (find _ (keys (kwargs c))); [discriminate | reflexivity].
Qed.

Lemma call_kwargs_clash (tokens attention_mask : tensor) :
  kwargs_clash c = true ->
  exists msg,
    call_kwargs (generate_explicit c tokens attention_mask) (kwargs c)
    = raise (TypeError msg).
Proof.
  unfold kwargs_clash, call_kwargs. rewrite find_existsb.
  change (keys (generate_explicit c tokens attention_mask)) with generate_keys.
  destruct (find _ (keys (kwargs c))) as [k |]; [| discriminate].
  intros _. eexists. reflexivity.
Qed.

Lemma tensor_to_device (chat : list Z) :
  (if is_xpu_available E
   then tensor_to E {| t_rows := [chat]; t_device := "cpu" |} "xpu:0"
   else tensor_to E {| t_rows := [chat]; t_device := "cpu" |} "cuda:0")
  = if device_present E (device E)
    then ret {| t_rows := [chat]; t_device := device E |}
    else raise (LibraryError "torch").
Proof. unfold device, tensor_to. now destruct (is_xpu_available E). Qed.

(** [generate_text] when the call can be made. *)
Lemma generate_text_called m tok g idx chat :
  can_call_generate E c = true ->
  generate_text E c m tok g idx chat
  = (EIsXpuAvailable :: EGenerate idx (generate_kwargs E c chat)
       :: match generate E m g (generate_kwargs E c chat) with
          | Ok (outputs0, _) => [EDecode outputs0 true]
          | Err _ => []
          end,
     match generate E m g (generate_kwargs E c chat) with
     | Ok (outputs0, g') =>
         match decode E tok outputs0 true with
         | Ok output_text => Ret (output_text, g')
         | Err what => Raise (LibraryError what)
         end
     | Err what => Raise (LibraryError what)
     end).
Proof.
  unfold can_call_generate. intro H. apply andb_true_iff in H as [Hd Hk].
  apply negb_true_iff in Hk.
  unfold generate_text. rewrite tensor_to_device, Hd.
  unfold emit. rewrite bind_Ret, bind_ret_l, (call_kwargs_ok _ _ Hk), bind_ret_l.
  fold (generate_kwargs E c chat).
  destruct (generate E m g (generate_kwargs E c chat)) as [[outputs0 g'] | e].
  - cbn [call]. rewrite bind_Ret.
    destruct (decode E tok outputs0 true) as [output_text | e]; reflexivity.
  - reflexivity.
Qed.

(** [generate_text] when it cannot: the run ends before the call. *)
Lemma generate_text_not_called m tok g idx chat :
  can_call_generate E c = false ->
  exists e, generate_text E c m tok g idx chat = ([EIsXpuAvailable], Raise e)
            /\ (e = LibraryError "torch" \/ exists msg, e = TypeError msg).
Proof.
  unfold can_call_generate. intro H. unfold generate_text.
  rewrite tensor_to_device. unfold emit. rewrite bind_Ret.
  destruct (device_present E (device E)).
  - cbn in H. apply negb_false_iff in H.
    rewrite bind_ret_l.
    destruct (call_kwargs_clash {| t_rows := [chat]; t_device := device E |}
                (ones_like {| t_rows := [chat]; t_device := "cpu" |}) H)
      as [msg Hm].
    rewrite Hm. eexists. split; [reflexivity |]. right. now exists msg.
  - eexists. split; [reflexivity |]. now left.
Qed.

Lemma generate_text_generated m tok g idx chat :
  generated (trace_of (generate_text E c m tok g idx chat))
  = if can_call_generate E c then [idx] else [].
Proof.
  destruct (can_call_generate E c) eqn:H.
  - rewrite (generate_text_called _ _ _ _ _ H). cbn [trace_of fst].
    destruct (generate E m g (generate_kwargs E c chat)) as [[o g'] | e];
      reflexivity.
  - destruct (generate_text_not_called m tok g idx chat H) as [e [He _]].
    rewrite He. reflexivity.
Qed.

Lemma generate_text_returns m tok g idx chat t output_text g' :
  generate_text E c m tok g idx chat = (t, Ret (output_text, g')) ->
  can_call_generate E c = true.
Proof.
  intro H. destruct (can_call_generate E c) eqn:Hc; [reflexivity |].
  destruct (generate_text_not_called m tok g idx chat Hc) as [e [He _]].
  rewrite He in H. discriminate.
Qed.

End StepFacts.

Section LoopFacts.

Variable E : Env.
Variable c : config.
Variable m : model E.
Variable tok : tokenizer E.
Variable dialogs : list Dialog.

(** ** One iteration *)

Lemma step_unfold g idx chat :
  step E c m tok dialogs g idx chat
  = match enabled_checkers E c with
    | Ok cs =>
        bind ([checker_event c], Ret tt) (fun _ =>
        bind (input_check dialogs idx cs) (fun _ =>
        bind (generate_text E c m tok g idx chat) (fun out =>
        bind (output_check (fst out) cs) (fun _ => ret (snd out)))))
    | Err what => ([checker_event c], Raise (LibraryError what))
    end.
Proof.
  unfold step. fold (enabled_checkers E c). fold (checker_event c).
  destruct (enabled_checkers E c) as [cs | e]; [| reflexivity].
  cbn [call]. rewrite !bind_Ret. cbn [trace_of result_of fst snd].
  destruct (input_check dialogs idx cs) as [t1 [[] | code | e]];
    [| reflexivity | reflexivity].
  rewrite !bind_Ret.
  destruct (generate_text E c m tok g idx chat) as [t2 [[text g'] | code | e]];
    reflexivity.
Qed.

(** The prompt is flagged: the checkers' failing reports, then [sys.exit(1)]. *)
Lemma step_flagged g idx chat cs text :
  enabled_checkers E c = Ok cs ->
  prompt_of dialogs idx = Some text ->
  all_safe (verdicts text cs) = false ->
  step E c m tok dialogs g idx chat
  = (checker_event c :: check_events 0 text cs
       ++ unsafe_prompt_lines (verdicts text cs), Exit 1).
Proof.
  intros He Hp Hs. rewrite step_unfold, He, bind_Ret.
  rewrite (input_check_unsafe _ _ _ _ Hp Hs). reflexivity.
Qed.

(** There is no first-turn content to read. *)
Lemma step_no_prompt g idx chat cs :
  enabled_checkers E c = Ok cs ->
  prompt_of dialogs idx = None ->
  exists e, (e = IndexError \/ e = KeyError "content")
    /\ first_turn_content dialogs idx = raise e
    /\ step E c m tok dialogs g idx chat
       = (checker_event c :: match cs with
                             | [] => [EPrint "User prompt deemed safe."]
                             | _ :: _ => []
                             end, Raise e).
Proof.
  intros He Hp. destruct (input_check_no_prompt _ _ cs Hp) as [e [Hk [Hf Hi]]].
  exists e. split; [exact Hk |]. split; [exact Hf |].
  rewrite step_unfold, He, bind_Ret, Hi. reflexivity.
Qed.

(** The prompt passes: the trace and the result of the whole iteration. *)
Lemma step_passes g idx chat cs text :
  enabled_checkers E c = Ok cs ->
  prompt_of dialogs idx = Some text ->
  all_safe (verdicts text cs) = true ->
  step E c m tok dialogs g idx chat
  = (checker_event c :: check_events 0 text cs ++ safe_prompt_lines text
       ++ trace_of (generate_text E c m tok g idx chat)
       ++ match result_of (generate_text E c m tok g idx chat) with
          | Ret (output_text, _) =>
              check_events 0 output_text cs
              ++ output_lines output_text (verdicts output_text cs)
          | _ => []
          end,
     match result_of (generate_text E c m tok g idx chat) with
     | Ret (_, g') => Ret g'
     | Exit code => Exit code
     | Raise e => Raise e
     end).
Proof.
  intros He Hp Hs. rewrite step_unfold, He, bind_Ret.
  rewrite (input_check_safe _ _ _ _ Hp Hs), bind_Ret.
  cbn [trace_of result_of fst snd].
  destruct (generate_text E c m tok g idx chat) as [t2 [[text' g'] | code | e]].
  - rewrite bind_Ret, output_check_eq, bind_Ret.
    cbn [trace_of result_of fst snd ret]. rewrite app_nil_r, <- !app_assoc.
    reflexivity.
  - rewrite bind_Exit. cbn [trace_of result_of fst snd].
    rewrite app_nil_r, <- !app_assoc. reflexivity.
  - rewrite bind_Raise. cbn [trace_of result_of fst snd].
    rewrite app_nil_r, <- !app_assoc. reflexivity.
Qed.

Lemma generated_checker_event : generated [checker_event c] = [].
Proof. reflexivity. Qed.

Lemma generated_safe_prompt_lines text : generated (safe_prompt_lines text) = [].
Proof. reflexivity. Qed.

Lemma generated_unsafe_prompt_lines rs :
  generated (unsafe_prompt_lines rs) = [].
Proof.
  unfold unsafe_prompt_lines.
  rewrite generated_cons, generated_app, generated_unsafe_reports.
  reflexivity.
Qed.

Lemma generated_output_lines text rs : generated (output_lines text rs) = [].
Proof.
  unfold output_lines. destruct (all_safe rs); [reflexivity |].
  rewrite generated_cons, generated_unsafe_reports. reflexivity.
Qed.

(** [model.generate] is called in iteration [idx] exactly when the prompt
    passes and the call can be made, and then once. *)
Lemma step_generated g idx chat :
  generated (trace_of (step E c m tok dialogs g idx chat))
  = if prompt_passes E c dialogs idx && can_call_generate E c
    then [idx] else [].
Proof.
  unfold prompt_passes.
  destruct (enabled_checkers E c) as [cs | e] eqn:He.
  - destruct (prompt_of dialogs idx) as [text |] eqn:Hp.
    + destruct (all_safe (verdicts text cs)) eqn:Hs.
      * rewrite (step_passes g idx chat _ _ He Hp Hs). cbn [trace_of fst].
        rewrite generated_cons, !generated_app, generated_check_events,
          generated_safe_prompt_lines, generate_text_generated,
          generated_checker_event.
        cbn [andb app].
        destruct (result_of (generate_text E c m tok g idx chat))
          as [[text' g'] | code | e].
        -- rewrite generated_app, generated_check_events,
             generated_output_lines. now rewrite app_nil_r.
        -- now rewrite app_nil_r.
        -- now rewrite app_nil_r.
      * rewrite (step_flagged g idx chat _ _ He Hp Hs). cbn [trace_of fst].
        rewrite generated_cons, generated_app, generated_check_events,
          generated_unsafe_prompt_lines, generated_checker_event.
        reflexivity.
    + destruct (step_no_prompt g idx chat cs He Hp) as [e [_ [_ Hstep]]].
      rewrite Hstep. now destruct cs.
  - rewrite step_unfold, He. reflexivity.
Qed.

(** An iteration that returns had a prompt that passes and made the call. *)
Lemma step_returns g idx chat t g' :
  step E c m tok dialogs g idx chat = (t, Ret g') ->
  prompt_passes E c dialogs idx = true /\ can_call_generate E c = true.
Proof.
  unfold prompt_passes. intro H.
  destruct (enabled_checkers E c) as [cs | e] eqn:He.
  - destruct (prompt_of dialogs idx) as [text |] eqn:Hp.
    + destruct (all_safe (verdicts text cs)) eqn:Hs.
      * split; [reflexivity |].
        rewrite (step_passes g idx chat _ _ He Hp Hs) in H.
        destruct (generate_text E c m tok g idx chat)
          as [t2 [[text' g2] | code | e]] eqn:Hg;
          cbn [trace_of result_of fst snd] in H; try discriminate.
        exact (generate_text_returns _ _ _ _ _ _ _ _ _ _ Hg).
      * rewrite (step_flagged g idx chat _ _ He Hp Hs) in H. discriminate.
    + destruct (step_no_prompt g idx chat cs He Hp) as [e [_ [_ Hstep]]].
      rewrite Hstep in H. discriminate.
  - rewrite step_unfold, He in H. discriminate.
Qed.

(** ** The loop *)

Lemma driver_loop_cons g idx chat rest :
  driver_loop E c m tok dialogs g idx (chat :: rest)
  = bind (step E c m tok dialogs g idx chat)
         (fun g' => driver_loop E c m tok dialogs g' (S idx) rest).
Proof. reflexivity. Qed.

Lemma driver_loop_app xs ys : forall g idx,
  driver_loop E c m tok dialogs g idx (xs ++ ys)
  = bind (driver_loop E c m tok dialogs g idx xs)
         (fun g' => driver_loop E c m tok dialogs g' (idx + length xs) ys).
Proof.
  induction xs as [| chat rest IH]; intros g idx.
  - cbn [app driver_loop length]. now rewrite bind_ret_l, Nat.add_0_r.
  - cbn [app length]. rewrite !driver_loop_cons, bind_assoc.
    apply bind_ext. intro g'. rewrite IH. apply bind_ext. intro g''.
    now rewrite Nat.add_succ_r.
Qed.

Lemma generated_driver_loop_cons g idx chat rest :
  generated (trace_of (driver_loop E c m tok dialogs g idx (chat :: rest)))
  = (if prompt_passes E c dialogs idx && can_call_generate E c
     then [idx] else [])
    ++ match result_of (step E c m tok dialogs g idx chat) with
       | Ret g' =>
           generated (trace_of (driver_loop E c m tok dialogs g' (S idx) rest))
       | _ => []
       end.
Proof.
  rewrite driver_loop_cons, trace_bind, generated_app, step_generated.
  now destruct (result_of (step E c m tok dialogs g idx chat)).
Qed.

(** The calls of [model.generate] are made for an initial run of loop
    indices, one call each. *)
Lemma generated_driver_loop_seq chats : forall g idx,
  exists n, (n <= length chats)%nat
    /\ generated (trace_of (driver_loop E c m tok dialogs g idx chats))
       = seq idx n.
Proof.
  induction chats as [| chat rest IH]; intros g idx.
  - exists 0%nat. split; [apply Nat.le_refl | reflexivity].
  - rewrite generated_driver_loop_cons.
    destruct (step E c m tok dialogs g idx chat) as [t [g' | code | e]] eqn:Hs;
      cbn [result_of snd].
    + destruct (step_returns _ _ _ _ _ Hs) as [-> ->].
      destruct (IH g' (S idx)) as [n [Hn ->]].
      exists (S n). split; [cbn; lia | reflexivity].
    + destruct (prompt_passes E c dialogs idx && can_call_generate E c).
      * exists 1%nat. split; [cbn; lia | reflexivity].
      * exists 0%nat. split; [cbn; lia | reflexivity].
    + destruct (prompt_passes E c dialogs idx && can_call_generate E c).
      * exists 1%nat. split; [cbn; lia | reflexivity].
      * exists 0%nat. split; [cbn; lia | reflexivity].
Qed.

(** Every call of [model.generate] is for a dialog whose prompt passes. *)
Lemma generated_driver_loop_passes chats : forall g idx k,
  In k (generated (trace_of (driver_loop E c m tok dialogs g idx chats))) ->
  prompt_passes E c dialogs k = true
  /\ (idx <= k < idx + length chats)%nat.
Proof.
  induction chats as [| chat rest IH]; intros g idx k Hin.
  - contradiction.
  - rewrite generated_driver_loop_cons in Hin. apply in_app_or in Hin.
    destruct Hin as [Hin | Hin].
    + destruct (prompt_passes E c dialogs idx) eqn:Hp; [| contradiction].
      destruct (can_call_generate E c); [| contradiction].
      destruct Hin as [<- | []]. split; [exact Hp | cbn; lia].
    + destruct (result_of (step E c m tok dialogs g idx chat)) as [g' | |];
        try contradiction.
      destruct (IH _ _ _ Hin) as [Hp Hk]. split; [exact Hp | cbn; lia].
Qed.

(** A dialog whose prompt does not pass stops the loop: it does not return,
    and no call of [model.generate] is made from that index on. *)
Lemma driver_loop_stops chats : forall g idx j,
  (idx <= j)%nat ->
  prompt_passes E c dialogs j = false ->
  (forall k, In k (generated
                     (trace_of (driver_loop E c m tok dialogs g idx chats))) ->
             (k < j)%nat)
  /\ ((j < idx + length chats)%nat ->
      exit_status (result_of (driver_loop E c m tok dialogs g idx chats)) = 1).
Proof.
  induction chats as [| chat rest IH]; intros g idx j Hle Hj.
  - split; [intros k [] | cbn; lia].
  - rewrite generated_driver_loop_cons, driver_loop_cons, result_bind.
    destruct (step E c m tok dialogs g idx chat) as [t [g' | code | e]] eqn:Hs;
      cbn [result_of snd].
    + destruct (step_returns _ _ _ _ _ Hs) as [Hp Hc]. rewrite Hp, Hc.
      assert (idx <> j) by congruence.
      destruct (IH g' (S idx) j ltac:(lia) Hj) as [IH1 IH2].
      split.
      * intros k [<- | Hin]; [lia | now apply IH1].
      * intro Hlt. apply IH2. cbn in Hlt. lia.
    + assert (code = 1) as ->.
      { unfold prompt_passes in *.
        destruct (enabled_checkers E c) as [cs | what] eqn:He.
        - destruct (prompt_of dialogs idx) as [text |] eqn:Hp.
          + destruct (all_safe (verdicts text cs)) eqn:Hv.
            * rewrite (step_passes g idx chat _ _ He Hp Hv) in Hs.
              injection Hs as _ Hr.
              destruct (can_call_generate E c) eqn:Hc.
              -- rewrite (generate_text_called _ _ _ _ _ _ _ Hc) in Hr.
                 cbn [result_of snd] in Hr.
                 destruct (generate E m g (generate_kwargs E c chat))
                   as [[o g2] | w]; [| discriminate].
                 destruct (decode E tok o true); discriminate.
              -- destruct (generate_text_not_called _ _ m tok g idx chat Hc)
                   as [e [He' _]].
                 rewrite He' in Hr. discriminate.
            * rewrite (step_flagged g idx chat _ _ He Hp Hv) in Hs.
              now injection Hs as _ <-.
          + destruct (step_no_prompt g idx chat cs He Hp) as [e [_ [_ Hx]]].
            rewrite Hx in Hs. discriminate.
        - rewrite step_unfold, He in Hs. discriminate. }
      split; [| reflexivity].
      intros k Hin. rewrite app_nil_r in Hin.
      destruct (Nat.eq_dec idx j) as [-> | Hne].
      * rewrite Hj in Hin. contradiction.
      * destruct (prompt_passes E c dialogs idx && can_call_generate E c);
          [| contradiction].
        destruct Hin as [<- | []]. lia.
    + split; [| reflexivity].
      intros k Hin. rewrite app_nil_r in Hin.
      destruct (Nat.eq_dec idx j) as [-> | Hne].
      * rewrite Hj in Hin. contradiction.
      * destruct (prompt_passes E c dialogs idx && can_call_generate E c);
          [| contradiction].
        destruct Hin as [<- | []]. lia.
Qed.

(** A loop that returns called [model.generate] once for every chat. *)
Lemma driver_loop_returns chats : forall g idx t g',
  driver_loop E c m tok dialogs g idx chats = (t, Ret g') ->
  generated t = seq idx (length chats).
Proof.
  induction chats as [| chat rest IH]; intros g idx t g' H.
  - injection H as <- _. reflexivity.
  - rewrite driver_loop_cons in H.
    apply bind_returns in H as [t1 [g1 [t2 [Hs [Hl ->]]]]].
    rewrite generated_app, (IH _ _ _ _ Hl).
    pose proof (step_generated g idx chat) as Hg. rewrite Hs in Hg.
    destruct (step_returns _ _ _ _ _ Hs) as [Hp Hc].
    rewrite Hp, Hc in Hg. cbn [trace_of fst andb] in Hg. now rewrite Hg.
Qed.

(** The loop, once it has come to index [j]. *)
Lemma driver_loop_reach chats g j t gj :
  (j < length chats)%nat ->
  driver_loop E c m tok dialogs g 0 (firstn j chats) = (t, Ret gj) ->
  exists chat rest,
    nth_error chats j = Some chat
    /\ driver_loop E c m tok dialogs g 0 chats
       = (t ++ trace_of (driver_loop E c m tok dialogs gj j (chat :: rest)),
          result_of (driver_loop E c m tok dialogs gj j (chat :: rest))).
Proof.
  intros Hj Ht.
  destruct (nth_error chats j) as [chat |] eqn:Hn;
    [| apply nth_error_None in Hn; lia].
  destruct (nth_error_split chats j Hn) as [l1 [l2 [Hc Hl]]].
  exists chat, l2. split; [reflexivity |].
  assert (firstn j chats = l1) as Hf.
  { rewrite Hc, <- Hl. now rewrite firstn_app, firstn_all, Nat.sub_diag,
      firstn_O, app_nil_r. }
  rewrite Hf in Ht. rewrite Hc at 1.
  rewrite driver_loop_app, Ht, bind_Ret, Hl. reflexivity.
Qed.

(** An [IndexError] comes from the first-turn access only. *)
Lemma step_IndexError g idx chat t :
  step E c m tok dialogs g idx chat = (t, Raise IndexError) ->
  nth_error dialogs idx = None \/ nth_error dialogs idx = Some [].
Proof.
  intro H. destruct (enabled_checkers E c) as [cs | what] eqn:He.
  - destruct (prompt_of dialogs idx) as [text |] eqn:Hp.
    + destruct (all_safe (verdicts text cs)) eqn:Hv.
      * rewrite (step_passes g idx chat _ _ He Hp Hv) in H.
        injection H as _ Hr.
        destruct (can_call_generate E c) eqn:Hc.
        -- rewrite (generate_text_called _ _ _ _ _ _ _ Hc) in Hr.
           cbn [result_of snd] in Hr.
           destruct (generate E m g (generate_kwargs E c chat))
             as [[o g2] | w]; [| discriminate].
           destruct (decode E tok o true); discriminate.
        -- destruct (generate_text_not_called _ _ m tok g idx chat Hc)
             as [e [He' Hk]].
           rewrite He' in Hr. cbn [result_of snd] in Hr.
           destruct Hk as [-> | [msg ->]]; discriminate.
      * rewrite (step_flagged g idx chat _ _ He Hp Hv) in H. discriminate.
    + destruct (step_no_prompt g idx chat cs He Hp) as [e [_ [Hf Hx]]].
      rewrite Hx in H. injection H as _ ->.
      unfold first_turn_content in Hf.
      destruct (nth_error dialogs idx) as [[| turn later] |]; auto.
      destruct (dict_get "content" turn); discriminate.
  - rewrite step_unfold, He in H. discriminate.
Qed.

Lemma driver_loop_IndexError chats : forall g idx t,
  driver_loop E c m tok dialogs g idx chats = (t, Raise IndexError) ->
  exists k, (idx <= k < idx + length chats)%nat
    /\ (nth_error dialogs k = None \/ nth_error dialogs k = Some []).
Proof.
  induction chats as [| chat rest IH]; intros g idx t H.
  - discriminate.
  - rewrite driver_loop_cons in H.
    destruct (step E c m tok dialogs g idx chat) as [t1 [g1 | code | e]] eqn:Hs.
    + rewrite bind_Ret in H. injection H as _ Hr.
      destruct (IH g1 (S idx)
                  (trace_of (driver_loop E c m tok dialogs g1 (S idx) rest)))
        as [k [Hk Hn]].
      * rewrite <- Hr. apply surjective_M.
      * exists k. split; [cbn; lia | exact Hn].
    + discriminate.
    + injection H as _ ->. exists idx. split; [cbn; lia |].
      exact (step_IndexError _ _ _ _ Hs).
Qed.

End LoopFacts.

Section MainFacts.

Variable E : Env.
Variable c : config.

(** ** Templating, then the loop *)

Lemma mapM_template_ok tok dialogs : forall chats,
  chats_of E tok dialogs = Some chats ->
  mapM (fun dialog => call (EApplyChatTemplate dialog)
                           (apply_chat_template E tok dialog)) dialogs
  = (map EApplyChatTemplate dialogs, Ret chats)
  /\ length chats = length dialogs.
Proof.
  induction dialogs as [| dialog rest IH]; intros chats H.
  - injection H as <-. split; reflexivity.
  - cbn [chats_of] in H. cbn [mapM].
    destruct (apply_chat_template E tok dialog) as [chat | what];
      [| discriminate].
    destruct (chats_of E tok rest) as [chats' |]; [| discriminate].
    injection H as <-. destruct (IH chats' eq_refl) as [-> Hl].
    split; [| cbn; now rewrite Hl].
    cbn [call]. rewrite !bind_Ret. cbn [trace_of result_of fst snd ret].
    now rewrite app_nil_r.
Qed.

Lemma mapM_template_fails tok dialogs :
  chats_of E tok dialogs = None ->
  exists t what,
    mapM (fun dialog => call (EApplyChatTemplate dialog)
                             (apply_chat_template E tok dialog)) dialogs
    = (t, Raise (LibraryError what))
    /\ generated t = [].
Proof.
  induction dialogs as [| dialog rest IH]; intro H.
  - discriminate.
  - cbn [chats_of] in H. cbn [mapM].
    destruct (apply_chat_template E tok dialog) as [chat | what].
    + destruct (chats_of E tok rest) as [chats' |]; [discriminate |].
      destruct (IH eq_refl) as [t [what [-> Hg]]].
      exists (EApplyChatTemplate dialog :: t), what. split; [reflexivity |].
      now rewrite generated_cons, Hg.
    + exists [EApplyChatTemplate dialog], what. split; reflexivity.
Qed.

Lemma generated_template_events (dialogs : list Dialog) :
  generated (map EApplyChatTemplate dialogs) = [].
Proof. induction dialogs as [| d rest IH]; [reflexivity | exact IH]. Qed.

Lemma generation_driver_ok m tok dialogs g chats :
  chats_of E tok dialogs = Some chats ->
  generation_driver E c m tok dialogs g
  = (map EApplyChatTemplate dialogs
       ++ trace_of (driver_loop E c m tok dialogs g 0 chats),
     result_of (driver_loop E c m tok dialogs g 0 chats)).
Proof.
  intro H. unfold generation_driver.
  destruct (mapM_template_ok tok dialogs chats H) as [-> _].
  now rewrite bind_Ret.
Qed.

Lemma generation_driver_fails m tok dialogs g :
  chats_of E tok dialogs = None ->
  exists t what,
    generation_driver E c m tok dialogs g = (t, Raise (LibraryError what))
    /\ generated t = [].
Proof.
  intro H. unfold generation_driver.
  destruct (mapM_template_fails tok dialogs H) as [t [what [-> Hg]]].
  now exists t, what.
Qed.

(** ** [main] around the driver *)

Lemma generated_dialog_source :
  generated (trace_of (dialog_source E c)) = [].
Proof.
  unfold dialog_source. destruct (prompt_file c) as [path |].
  - destruct (path_exists E path); [| reflexivity].
    now destruct (read_dialogs_from_file E path).
  - destruct (stdin_isatty E); [reflexivity |].
    cbn [negb]. now destruct (json_loads E _).
Qed.

Lemma load_runtime_cases :
  exists t, generated t = []
    /\ ((exists m tok, load_runtime E c = (t, Ret (m, tok)))
        \/ (exists what, load_runtime E c = (t, Raise (LibraryError what)))).
Proof.
  assert (forall m1 : model E, exists t, generated t = []
    /\ ((exists tok,
           bind (call (EFromPretrained (model_name c))
                      (from_pretrained E (model_name c)))
                (fun tok => ret (m1, tok)) = (t, Ret (m1, tok)))
        \/ (exists what,
           bind (call (EFromPretrained (model_name c))
                      (from_pretrained E (model_name c)))
                (fun tok => ret (m1, tok))
           = (t, Raise (LibraryError what))))) as K.
  { intro m1. destruct (from_pretrained E (model_name c)) as [tok | what].
    - eexists. split; [| left; exists tok; reflexivity]. reflexivity.
    - eexists. split; [| right; exists what; reflexivity]. reflexivity. }
  assert (forall m0 : model E, exists t, generated t = []
    /\ ((exists m1,
           match peft_model c with
           | Some p => if String.eqb p "" then ret m0
                       else call (ELoadPeftModel p) (load_peft_model E m0 p)
           | None => ret m0
           end = (t, Ret m1))
        \/ (exists what,
           match peft_model c with
           | Some p => if String.eqb p "" then ret m0
                       else call (ELoadPeftModel p) (load_peft_model E m0 p)
           | None => ret m0
           end = (t, Raise (LibraryError what))))) as P.
  { intro m0. destruct (peft_model c) as [p |].
    - destruct (String.eqb p "").
      + exists []. split; [reflexivity | left; now exists m0].
      + destruct (load_peft_model E m0 p) as [m1 | what].
        * eexists. split; [| left; exists m1; reflexivity]. reflexivity.
        * eexists. split; [| right; exists what; reflexivity]. reflexivity.
    - exists []. split; [reflexivity | left; now exists m0]. }
  unfold load_runtime.
  destruct (load_model E (model_name c) (quantization c) (use_fast_kernels c)
              (kwargs c)) as [m0 | what]; cbn [call].
  - rewrite bind_Ret. destruct (P m0) as [t1 [Ht1 [[m1 ->] | [what ->]]]].
    + rewrite bind_Ret. destruct (K m1) as [t2 [Ht2 [[tok ->] | [what ->]]]];
        cbn [trace_of result_of fst snd].
      * eexists. split; [| left; exists m1, tok; reflexivity].
        cbn [trace_of result_of fst snd app].
        now rewrite generated_cons, ?generated_app, ?Ht1, ?Ht2.
      * eexists. split; [| right; exists what; reflexivity].
        cbn [trace_of result_of fst snd app].
        now rewrite generated_cons, ?generated_app, ?Ht1, ?Ht2.
    + rewrite bind_Raise. cbn [trace_of result_of fst snd].
      eexists. split; [| right; exists what; reflexivity].
      cbn [trace_of result_of fst snd app].
      now rewrite generated_cons, ?generated_app, ?Ht1.
  - eexists. split; [| right; exists what; reflexivity]. reflexivity.
Qed.

Lemma set_seeds_eq :
  set_seeds E c
  = ([ EIsXpuAvailable;
       if is_xpu_available E then ESeedXpu (seed c) else ESeedCuda (seed c);
       ESeedTorch (seed c) ],
     match manual_seed E (seed c) with
     | Ok g => Ret g
     | Err what => Raise (LibraryError what)
     end).
Proof.
  unfold set_seeds.
  destruct (is_xpu_available E); now destruct (manual_seed E (seed c)).
Qed.

Lemma generated_preamble dialogs : generated (preamble E c dialogs) = [].
Proof. unfold preamble. now destruct (is_xpu_available E). Qed.

(** Once the dialogs are read, [main] either fails while loading or runs the
    driver on them and ends as the driver ends. *)
Lemma main_after_source dialogs t0 :
  dialog_source E c = (t0, Ret dialogs) ->
  exists t1, generated t1 = []
    /\ ((exists what,
           main E c
           = (t0 ++ preamble E c dialogs ++ t1, Raise (LibraryError what)))
        \/ (exists m tok g,
           manual_seed E (seed c) = Ok g
           /\ main E c
              = (t0 ++ preamble E c dialogs ++ t1
                   ++ trace_of (generation_driver E c m tok dialogs g),
                 ending (result_of (generation_driver E c m tok dialogs g))))).
Proof.
  intro H. unfold main. rewrite H, bind_Ret. unfold print, emit.
  rewrite !bind_Ret, set_seeds_eq.
  destruct (manual_seed E (seed c)) as [g | what0].
  - rewrite bind_Ret.
    destruct load_runtime_cases as [t1 [Ht1 [[m [tok ->]] | [what ->]]]];
      exists t1; (split; [exact Ht1 |]).
    + right. exists m, tok, g. split; [reflexivity |]. rewrite bind_Ret.
      destruct (generation_driver E c m tok dialogs g)
        as [t2 [g' | code | e]];
        cbn [trace_of result_of fst snd ending bind ret];
        unfold preamble; cbn [app]; rewrite ?app_nil_r; reflexivity.
    + left. exists what. rewrite bind_Raise.
      cbn [trace_of result_of fst snd]. unfold preamble. cbn [app].
      rewrite ?app_nil_r. reflexivity.
  - exists []. split; [reflexivity |]. left. exists what0.
    rewrite bind_Raise. cbn [trace_of result_of fst snd]. unfold preamble.
    cbn [app]. reflexivity.
Qed.

End MainFacts.

(** * Properties of the driver *)

(** ** Safety checker set *)

(** C3. On the user prompt and on the model output alike, every enabled
    checker is called on the text, in order and whatever the earlier ones
    answered; the verdict that selects the branch is the conjunction of the
    checkers' booleans; with no checker enabled the verdict is "safe". *)
Theorem checks_all_run_and_verdict_is_conjunction
    (dialogs : list Dialog) (idx : nat) (text : string) (cs : list checker) :
  prompt_of dialogs idx = Some text ->
  let verdict t :=
    fold_right andb true (map (fun check => sr_is_safe (check t)) cs) in
  input_check dialogs idx cs
  = (map (fun k => ECheck k text) (seq 0 (length cs))
       ++ (if verdict text then safe_prompt_lines text
           else unsafe_prompt_lines (verdicts text cs)),
     if verdict text then Ret tt else Exit 1)
  /\ (forall output_text,
        output_check output_text cs
        = (map (fun k => ECheck k output_text) (seq 0 (length cs))
             ++ (if verdict output_text
                 then [ EPrint "User input and model output deemed safe.";
                        EPrint ("Model output:" ++ nl ++ output_text)%string;
                        EPrint separator ]
                 else EPrint "Model output deemed unsafe."
                        :: unsafe_reports (verdicts output_text cs)),
           Ret tt))
  /\ input_check dialogs idx [] = (safe_prompt_lines text, Ret tt)
  /\ (forall output_text,
        output_check output_text []
        = ([ EPrint "User input and model output deemed safe.";
             EPrint ("Model output:" ++ nl ++ output_text)%string;
             EPrint separator ], Ret tt)).
Proof.
  intros Hp verdict.
  assert (forall t, all_safe (verdicts t cs) = verdict t) as Hv
    by (intro t; apply all_safe_and).
  split; [| split; [| split]].
  - rewrite <- Hv. destruct (all_safe (verdicts text cs)) eqn:Hs.
    + exact (input_check_safe _ _ _ _ Hp Hs).
    + exact (input_check_unsafe _ _ _ _ Hp Hs).
  - intro output_text. rewrite output_check_eq. unfold output_lines.
    now rewrite Hv.
  - exact (input_check_safe dialogs idx text [] Hp eq_refl).
  - intro output_text. now rewrite output_check_eq.
Qed.

Lemma checks_all_run_witness :
  input_check demo_dialogs 1
    [ keyword_checker "Sensitive Topics" "politics";
      keyword_checker "Llama Guard" "attack" ]
  = ([ ECheck 0 "plan an attack"; ECheck 1 "plan an attack";
       EPrint "User prompt deemed unsafe.";
       EPrint "Llama Guard"; EPrint "found: attack";
       EPrint "Skipping the inferece as the prompt is not safe." ],
     Exit 1).
Proof.
  exact (proj1 (checks_all_run_and_verdict_is_conjunction demo_dialogs 1
                  "plan an attack"
                  [ keyword_checker "Sensitive Topics" "politics";
                    keyword_checker "Llama Guard" "attack" ]
                  eq_refl)).
Defined.

(** ** Dialog source *)

(** C6. A prompt file that does not exist: the run ends on the failed
    existence assertion, whose message names the file; the exit status is
    not zero and the model was never asked to load. *)
Theorem missing_prompt_file_fails_before_model_load
    (E : Env) (c : config) (path : string) :
  prompt_file c = Some path ->
  path_exists E path = false ->
  main E c
  = ([EPathExists path],
     Raise (AssertionError
              ("Provided Prompt file does not exist " ++ path)%string))
  /\ exit_status (result_of (main E c)) = 1
  /\ loads_model (trace_of (main E c)) = false.
Proof.
  intros Hf Hx.
  assert (main E c
          = ([EPathExists path],
             Raise (AssertionError
                      ("Provided Prompt file does not exist " ++ path)%string)))
    as Hm.
  { unfold main, dialog_source. rewrite Hf, Hx. reflexivity. }
  rewrite Hm. repeat split.
Qed.

Lemma missing_prompt_file_witness :
  main (demo_env true [] demo_dialogs "fine") missing_file_config
  = ([EPathExists "nowhere.json"],
     Raise (AssertionError "Provided Prompt file does not exist nowhere.json")).
Proof.
  exact (proj1 (missing_prompt_file_fails_before_model_load
                  (demo_env true [] demo_dialogs "fine") missing_file_config
                  "nowhere.json" eq_refl eq_refl)).
Defined.

(** C7. No prompt file.  Piped standard input that [json.loads] rejects:
    the diagnostic is printed and the run exits with status 1.  Standard
    input that is a terminal: the "no user prompt" diagnostic is printed and
    the run exits with status 1 at once.  Neither run asks the model to
    load. *)
Theorem no_usable_input_exits_before_model_load (E : Env) (c : config) :
  prompt_file c = None ->
  (stdin_isatty E = false ->
   (exists what,
      json_loads E (String.concat nl (stdin_readlines E)) = Err what) ->
   main E c
   = ([ EStdinIsatty; EStdinReadlines;
        EJsonLoads (String.concat nl (stdin_readlines E));
        EPrint "Could not parse json from stdin. Please provide a json file with the user prompts. Exiting." ],
      Exit 1)
   /\ loads_model (trace_of (main E c)) = false)
  /\ (stdin_isatty E = true ->
      main E c
      = ([EStdinIsatty; EPrint "No user prompt provided. Exiting."], Exit 1)
      /\ loads_model (trace_of (main E c)) = false).
Proof.
  intro Hf. split.
  - intros Htty [what Hj].
    assert (main E c
            = ([ EStdinIsatty; EStdinReadlines;
                 EJsonLoads (String.concat nl (stdin_readlines E));
                 EPrint "Could not parse json from stdin. Please provide a json file with the user prompts. Exiting." ],
               Exit 1)) as Hm.
    { unfold main, dialog_source. rewrite Hf, Htty. cbn [negb].
      unfold emit. rewrite !bind_Ret, Hj. reflexivity. }
    rewrite Hm. split; reflexivity.
  - intro Htty.
    assert (main E c
            = ([EStdinIsatty; EPrint "No user prompt provided. Exiting."],
               Exit 1)) as Hm.
    { unfold main, dialog_source. rewrite Hf, Htty. reflexivity. }
    rewrite Hm. split; reflexivity.
Qed.

Lemma no_usable_input_witness :
  main (demo_env false ["{"; "oops"] demo_dialogs "fine") (default_config "llama")
  = ([ EStdinIsatty; EStdinReadlines;
       EJsonLoads (String.concat nl ["{"; "oops"]);
       EPrint "Could not parse json from stdin. Please provide a json file with the user prompts. Exiting." ],
     Exit 1)
  /\ main (demo_env true [] demo_dialogs "fine") (default_config "llama")
     = ([EStdinIsatty; EPrint "No user prompt provided. Exiting."], Exit 1).
Proof.
  split.
  - exact (proj1 (proj1 (no_usable_input_exits_before_model_load
                           (demo_env false ["{"; "oops"] demo_dialogs "fine")
                           (default_config "llama") eq_refl)
                        eq_refl
                        (ex_intro _ "JSONDecodeError" eq_refl))).
  - exact (proj1 (proj2 (no_usable_input_exits_before_model_load
                           (demo_env true [] demo_dialogs "fine")
                           (default_config "llama") eq_refl)
                        eq_refl)).
Defined.

(** ** Unused and dropped parameters *)

(** C9. [safety_score_threshold] is accepted and never read: two command
    lines that differ in nothing else give, on the same machine, the same
    actions in the same order (checker calls, printed lines and all the
    rest), the same ending and exit status, and the same checkers. *)
Theorem safety_score_threshold_is_ignored (E : Env) (c1 c2 : config) :
  same_but_threshold c1 c2 ->
  main E c1 = main E c2
  /\ exit_status (result_of (main E c1)) = exit_status (result_of (main E c2))
  /\ enabled_checkers E c1 = enabled_checkers E c2.
Proof.
  unfold same_but_threshold. intro H.
  assert (forall c, main E c = main E (with_safety_score_threshold 0%float c))
    as Hm by reflexivity.
  assert (forall c, enabled_checkers E c
                    = enabled_checkers E (with_safety_score_threshold 0%float c))
    as He by reflexivity.
  rewrite (Hm c1), (Hm c2), (He c1), (He c2), H. repeat split.
Qed.

Lemma safety_score_threshold_witness :
  main (demo_env true [] demo_dialogs "fine") demo_config
  = main (demo_env true [] demo_dialogs "fine")
         (with_safety_score_threshold 0.75%float demo_config).
Proof.
  exact (proj1 (safety_score_threshold_is_ignored
                  (demo_env true [] demo_dialogs "fine") demo_config
                  (with_safety_score_threshold 0.75%float demo_config)
                  eq_refl)).
Defined.

(** C4. [min_new_tokens] is accepted ("The minimum numbers of tokens to
    generate") but it is not among the keyword arguments of the call of
    [model.generate]: the call names ten arguments, [max_new_tokens] among
    them and [min_new_tokens] not; whatever value is given for it, the run
    is the same; and with [min_new_tokens = 5] on the command line the one
    call made carries no such argument. *)
Theorem min_new_tokens_never_reaches_generate :
  (forall E c chat,
     keys (generate_kwargs E c chat) = generate_keys ++ keys (kwargs c))
  /\ existsb (String.eqb "max_new_tokens") generate_keys = true
  /\ existsb (String.eqb "min_new_tokens") generate_keys = false
  /\ (forall E c n, main E (with_min_new_tokens n c) = main E c)
  /\ generate_calls
       (trace_of (main (demo_env true [] [[[("role", "user"); ("content", "hello")]]] "fine")
                       (with_min_new_tokens 5 demo_config)))
     = [ EGenerate 0
           [ ("input_ids", VTensor {| t_rows := [[7]]; t_device := "cuda:0" |});
             ("attention_mask", VTensor {| t_rows := [[1]]; t_device := "cpu" |});
             ("max_new_tokens", VInt 256);
             ("do_sample", VBool true);
             ("top_p", VFloat 1.0%float);
             ("temperature", VFloat 1.0%float);
             ("use_cache", VBool true);
             ("top_k", VInt 50);
             ("repetition_penalty", VFloat 1.0%float);
             ("length_penalty", VInt 1) ] ].
Proof.
  split; [| split; [| split; [| split]]].
  - intros E c chat. unfold generate_kwargs, keys. now rewrite map_app.
  - reflexivity.
  - reflexivity.
  - intros E c n. reflexivity.
  - vm_compute. reflexivity.
Qed.

(** ** Generation driver *)

Lemma prompt_of_first_turn (dialogs : list Dialog) j turn later text :
  nth_error dialogs j = Some (turn :: later) ->
  dict_get "content" turn = Some text ->
  prompt_of dialogs j = Some text.
Proof. unfold prompt_of. now intros -> ->. Qed.

Lemma exit_status_ending A (r : result A) :
  exit_status (ending r) = exit_status r.
Proof. now destruct r. Qed.

(** C1. The dialogs are read and dialog [j] has a first turn whose content
    some enabled checker flags.  Then the process ends with exit status 1
    and [model.generate] is called neither for dialog [j] nor for any later
    one.  When the loop comes to dialog [j], it calls every checker on that
    content, prints the verdict, the identifier and the report of each
    failing checker and the closing line, and exits with status 1. *)
Theorem unsafe_prompt_aborts_run (E : Env) (c : config)
    (dialogs : list Dialog) (t0 : list event) (cs : list checker) (j : nat)
    (turn : Turn) (later : Dialog) (text : string) :
  dialog_source E c = (t0, Ret dialogs) ->
  enabled_checkers E c = Ok cs ->
  nth_error dialogs j = Some (turn :: later) ->
  dict_get "content" turn = Some text ->
  Exists (fun check => sr_is_safe (check text) = false) cs ->
  exit_status (result_of (main E c)) = 1
  /\ (forall k, In k (generated (trace_of (main E c))) -> (k < j)%nat)
  /\ (forall m tok g chats t gj,
        chats_of E tok dialogs = Some chats ->
        driver_loop E c m tok dialogs g 0 (firstn j chats) = (t, Ret gj) ->
        generation_driver E c m tok dialogs g
        = (map EApplyChatTemplate dialogs ++ t
             ++ checker_event c
             :: map (fun k => ECheck k text) (seq 0 (length cs))
             ++ EPrint "User prompt deemed unsafe."
             :: unsafe_reports (verdicts text cs)
             ++ [EPrint "Skipping the inferece as the prompt is not safe."],
           Exit 1)).
Proof.
  intros Hsrc He Hn Hd Hex.
  pose proof (prompt_of_first_turn _ _ _ _ _ Hn Hd) as Hp.
  pose proof (all_safe_Exists _ _ Hex) as Hv.
  assert (prompt_passes E c dialogs j = false) as Hpp
    by (unfold prompt_passes; now rewrite He, Hp).
  assert (j < length dialogs)%nat as Hj
    by (apply nth_error_Some; congruence).
  assert (generated t0 = []) as Ht0.
  { pose proof (generated_dialog_source E c) as G. now rewrite Hsrc in G. }
  split; [| split].
  - destruct (main_after_source E c dialogs t0 Hsrc)
      as [t1 [Ht1 [[what ->] | [m [tok [g0 [_ ->]]]]]]]; [reflexivity |].
    cbn [result_of snd]. rewrite exit_status_ending.
    destruct (chats_of E tok dialogs) as [chats |] eqn:Hc.
    + rewrite (generation_driver_ok E c m tok dialogs _ chats Hc).
      cbn [result_of snd].
      apply (driver_loop_stops E c m tok dialogs chats _ 0 j (Nat.le_0_l j) Hpp).
      destruct (mapM_template_ok E tok dialogs chats Hc) as [_ ->]. exact Hj.
    + destruct (generation_driver_fails E c m tok dialogs g0 Hc)
        as [t [what [-> _]]].
      reflexivity.
  - intro k.
    destruct (main_after_source E c dialogs t0 Hsrc)
      as [t1 [Ht1 [[what ->] | [m [tok [g0 [_ ->]]]]]]]; cbn [trace_of fst].
    + rewrite !generated_app, Ht0, Ht1, generated_preamble. intros [].
    + rewrite !generated_app, Ht0, Ht1, generated_preamble. cbn [app].
      destruct (chats_of E tok dialogs) as [chats |] eqn:Hc.
      * rewrite (generation_driver_ok E c m tok dialogs _ chats Hc).
        cbn [trace_of fst].
        rewrite generated_app, generated_template_events. cbn [app].
        apply (driver_loop_stops E c m tok dialogs chats _ 0 j
                 (Nat.le_0_l j) Hpp).
      * destruct (generation_driver_fails E c m tok dialogs g0 Hc)
          as [t [what [-> Hg]]].
        cbn [trace_of fst]. rewrite Hg. intros [].
  - intros m tok g chats t gj Hc Hreach.
    rewrite (generation_driver_ok E c m tok dialogs g chats Hc).
    destruct (mapM_template_ok E tok dialogs chats Hc) as [_ Hl].
    destruct (driver_loop_reach E c m tok dialogs chats g j t gj
                ltac:(rewrite Hl; exact Hj) Hreach)
      as [chat [rest [_ ->]]].
    cbn [trace_of result_of fst snd].
    rewrite driver_loop_cons, (step_flagged E c m tok dialogs gj j chat cs text
                                 He Hp Hv).
    rewrite bind_Exit. reflexivity.
Qed.

Lemma unsafe_prompt_aborts_run_witness :
  exit_status
    (result_of (main (demo_env true [] demo_dialogs "fine") demo_config)) = 1
  /\ (forall k,
        In k (generated
                (trace_of (main (demo_env true [] demo_dialogs "fine")
                                demo_config))) ->
        (k < 1)%nat)
  /\ generation_driver (demo_env true [] demo_dialogs "fine") demo_config
        tt tt demo_dialogs 42
     = (map EApplyChatTemplate demo_dialogs
          ++ trace_of (step (demo_env true [] demo_dialogs "fine") demo_config
                            tt tt demo_dialogs 42 0 [7])
          ++ [ EGetSafetyChecker false false true true;
               ECheck 0 "plan an attack"; ECheck 1 "plan an attack";
               EPrint "User prompt deemed unsafe.";
               EPrint "Salesforce Content Safety Flan T5 Base";
               EPrint "found: attack";
               EPrint "Llama Guard";
               EPrint "found: attack";
               EPrint "Skipping the inferece as the prompt is not safe." ],
        Exit 1).
Proof.
  assert (Exists (fun check : checker =>
                    sr_is_safe (check "plan an attack") = false)
                 demo_checkers) as Hex
    by (apply Exists_cons_hd; reflexivity).
  pose proof (unsafe_prompt_aborts_run
                (demo_env true [] demo_dialogs "fine") demo_config
                demo_dialogs [EPathExists "prompts.json"; EReadDialogs "prompts.json"]
                demo_checkers 1
                [("role", "user"); ("content", "plan an attack")]
                [[("role", "assistant"); ("content", "no")]]
                "plan an attack"
                eq_refl eq_refl eq_refl eq_refl Hex) as [H1 [H2 H3]].
  split; [exact H1 | split; [exact H2 |]].
  exact (H3 tt tt 42 [[7]; [7; 7]; [7]] _ 43 eq_refl eq_refl).
Defined.

(** C2. The prompt of dialog [idx] passes, [model.generate] and the decoding
    return [output_text], and some enabled checker flags that text.  Then the
    iteration prints the verdict and the identifier and the report of each
    failing checker, and returns: the loop goes on with the next chat, and
    the run ends as the rest of the loop ends.  The output check never ends
    a run, whatever it is given. *)
Theorem unsafe_output_is_reported_and_loop_goes_on (E : Env) (c : config)
    (m : model E) (tok : tokenizer E) (dialogs : list Dialog) (g g' : rng E)
    (idx : nat) (chat : list Z) (rest : list (list Z)) (cs : list checker)
    (turn : Turn) (later : Dialog) (text output_text : string)
    (outputs0 : list Z) :
  enabled_checkers E c = Ok cs ->
  nth_error dialogs idx = Some (turn :: later) ->
  dict_get "content" turn = Some text ->
  Forall (fun check => sr_is_safe (check text) = true) cs ->
  can_call_generate E c = true ->
  generate E m g (generate_kwargs E c chat) = Ok (outputs0, g') ->
  decode E tok outputs0 true = Ok output_text ->
  Exists (fun check => sr_is_safe (check output_text) = false) cs ->
  step E c m tok dialogs g idx chat
  = (checker_event c
       :: map (fun k => ECheck k text) (seq 0 (length cs))
       ++ safe_prompt_lines text
       ++ [ EIsXpuAvailable;
            EGenerate idx (generate_kwargs E c chat);
            EDecode outputs0 true ]
       ++ map (fun k => ECheck k output_text) (seq 0 (length cs))
       ++ EPrint "Model output deemed unsafe."
       :: unsafe_reports (verdicts output_text cs),
     Ret g')
  /\ driver_loop E c m tok dialogs g idx (chat :: rest)
     = (trace_of (step E c m tok dialogs g idx chat)
          ++ trace_of (driver_loop E c m tok dialogs g' (S idx) rest),
        result_of (driver_loop E c m tok dialogs g' (S idx) rest))
  /\ (forall any_text any_checkers,
        result_of (output_check any_text any_checkers) = Ret tt).
Proof.
  intros He Hn Hd Hsafe Hcall Hgen Hdec Hex.
  pose proof (prompt_of_first_turn _ _ _ _ _ Hn Hd) as Hp.
  apply all_safe_Forall in Hsafe.
  pose proof (all_safe_Exists _ _ Hex) as Hv.
  assert (step E c m tok dialogs g idx chat
          = (checker_event c
               :: map (fun k => ECheck k text) (seq 0 (length cs))
               ++ safe_prompt_lines text
               ++ [ EIsXpuAvailable;
                    EGenerate idx (generate_kwargs E c chat);
                    EDecode outputs0 true ]
               ++ map (fun k => ECheck k output_text) (seq 0 (length cs))
               ++ EPrint "Model output deemed unsafe."
               :: unsafe_reports (verdicts output_text cs),
             Ret g')) as Hstep.
  { rewrite (step_passes E c m tok dialogs g idx chat cs text He Hp Hsafe).
    rewrite (generate_text_called E c m tok g idx chat Hcall), Hgen, Hdec.
    cbn [trace_of result_of fst snd]. unfold output_lines. rewrite Hv.
    reflexivity. }
  split; [exact Hstep | split].
  - rewrite driver_loop_cons, Hstep, bind_Ret. reflexivity.
  - intros any_text any_checkers. now rewrite output_check_eq.
Qed.

Lemma unsafe_output_witness :
  step (demo_env true [] demo_dialogs "an attack plan") demo_config tt tt
       demo_dialogs 42 0 [7]
  = ([ EGetSafetyChecker false false true true;
       ECheck 0 "hello"; ECheck 1 "hello";
       EPrint "User prompt deemed safe.";
       EPrint ("User prompt:" ++ nl ++ " hello")%string;
       EPrint separator;
       EIsXpuAvailable;
       EGenerate 0 (generate_kwargs
                      (demo_env true [] demo_dialogs "an attack plan")
                      demo_config [7]);
       EDecode [1; 2; 3] true;
       ECheck 0 "an attack plan"; ECheck 1 "an attack plan";
       EPrint "Model output deemed unsafe.";
       EPrint "Salesforce Content Safety Flan T5 Base";
       EPrint "found: attack";
       EPrint "Llama Guard";
       EPrint "found: attack" ],
     Ret 43).
Proof.
  assert (Forall (fun check : checker => sr_is_safe (check "hello") = true)
                 demo_checkers) as Hall
    by (repeat constructor).
  assert (Exists (fun check : checker =>
                    sr_is_safe (check "an attack plan") = false)
                 demo_checkers) as Hex
    by (apply Exists_cons_hd; reflexivity).
  exact (proj1 (unsafe_output_is_reported_and_loop_goes_on
                  (demo_env true [] demo_dialogs "an attack plan") demo_config
                  tt tt demo_dialogs 42 43 0 [7] [[7; 7]; [7]] demo_checkers
                  [("role", "user"); ("content", "hello")] [] "hello"
                  "an attack plan" [1; 2; 3]
                  eq_refl eq_refl eq_refl Hall eq_refl eq_refl eq_refl Hex)).
Defined.

Lemma prompt_of_inv (dialogs : list Dialog) k text :
  prompt_of dialogs k = Some text ->
  exists turn later,
    nth_error dialogs k = Some (turn :: later)
    /\ dict_get "content" turn = Some text.
Proof.
  unfold prompt_of.
  destruct (nth_error dialogs k) as [[| turn later] |]; try discriminate.
  intro H. now exists turn, later.
Qed.

Lemma generated_generation_driver (E : Env) (c : config) (m : model E)
    (tok : tokenizer E) (dialogs : list Dialog) (g : rng E) :
  exists n, (n <= length dialogs)%nat
    /\ generated (trace_of (generation_driver E c m tok dialogs g)) = seq 0 n
    /\ (forall k, (k < n)%nat -> prompt_passes E c dialogs k = true)
    /\ (forall g', result_of (generation_driver E c m tok dialogs g) = Ret g' ->
                   n = length dialogs).
Proof.
  destruct (chats_of E tok dialogs) as [chats |] eqn:Hc.
  - rewrite (generation_driver_ok E c m tok dialogs g chats Hc).
    destruct (mapM_template_ok E tok dialogs chats Hc) as [_ Hl].
    cbn [trace_of result_of fst snd].
    rewrite generated_app, generated_template_events. cbn [app].
    destruct (generated_driver_loop_seq E c m tok dialogs chats g 0)
      as [n [Hn Hs]].
    exists n. split; [now rewrite <- Hl | split; [exact Hs | split]].
    + intros k Hk.
      apply (generated_driver_loop_passes E c m tok dialogs chats g 0 k).
      rewrite Hs. apply in_seq. lia.
    + intros g' Hr.
      pose proof (driver_loop_returns E c m tok dialogs chats g 0
                    (trace_of (driver_loop E c m tok dialogs g 0 chats)) g')
        as Hret.
      rewrite Hs in Hret.
      assert (seq 0 n = seq 0 (length chats)) as Hq.
      { apply Hret. rewrite <- Hr. apply surjective_M. }
      apply (f_equal (@length nat)) in Hq. rewrite !length_seq in Hq.
      now rewrite <- Hl.
  - destruct (generation_driver_fails E c m tok dialogs g Hc)
      as [t [what [-> Hg]]].
    exists 0%nat. cbn [trace_of result_of fst snd].
    split; [lia | split; [exact Hg | split]].
    + intros k Hk. lia.
    + intros g' Hr. discriminate.
Qed.

(** C5. [model.generate] is never called twice for one dialog.  When the
    loop comes to dialog [i], every enabled checker reports its first-turn
    content safe, and the statements before the call go through (the device
    exists, the keyword arguments bind), it is called exactly once for that
    dialog.  A driver that returns has called it once for every dialog. *)
Theorem generate_called_once_per_safe_dialog (E : Env) (c : config)
    (m : model E) (tok : tokenizer E) (dialogs : list Dialog) (g : rng E) :
  (forall k,
     (count_occ Nat.eq_dec
        (generated (trace_of (generation_driver E c m tok dialogs g))) k
      <= 1)%nat)
  /\ (forall chats i cs turn later text t gi,
        chats_of E tok dialogs = Some chats ->
        driver_loop E c m tok dialogs g 0 (firstn i chats) = (t, Ret gi) ->
        enabled_checkers E c = Ok cs ->
        nth_error dialogs i = Some (turn :: later) ->
        dict_get "content" turn = Some text ->
        Forall (fun check => sr_is_safe (check text) = true) cs ->
        can_call_generate E c = true ->
        count_occ Nat.eq_dec
          (generated (trace_of (generation_driver E c m tok dialogs g))) i
        = 1%nat)
  /\ (forall g',
        result_of (generation_driver E c m tok dialogs g) = Ret g' ->
        generated (trace_of (generation_driver E c m tok dialogs g))
        = seq 0 (length dialogs)).
Proof.
  destruct (generated_generation_driver E c m tok dialogs g)
    as [n [Hn [Hs [_ Hret]]]].
  assert (forall k,
     (count_occ Nat.eq_dec
        (generated (trace_of (generation_driver E c m tok dialogs g))) k
      <= 1)%nat) as Hmost.
  { intro k. rewrite Hs. apply NoDup_count_occ. apply seq_NoDup. }
  split; [exact Hmost | split].
  - intros chats i cs turn later text t gi Hc Hreach He Hnth Hd Hsafe Hcall.
    pose proof (prompt_of_first_turn _ _ _ _ _ Hnth Hd) as Hp.
    apply all_safe_Forall in Hsafe.
    assert (prompt_passes E c dialogs i = true) as Hpp
      by (unfold prompt_passes; now rewrite He, Hp).
    assert (In i (generated
                    (trace_of (generation_driver E c m tok dialogs g)))) as Hin.
    { rewrite (generation_driver_ok E c m tok dialogs g chats Hc).
      destruct (mapM_template_ok E tok dialogs chats Hc) as [_ Hl].
      assert (i < length chats)%nat as Hi
        by (rewrite Hl; apply nth_error_Some; congruence).
      destruct (driver_loop_reach E c m tok dialogs chats g i t gi Hi Hreach)
        as [chat [rest [_ ->]]].
      cbn [trace_of fst].
      rewrite !generated_app, generated_driver_loop_cons, Hpp, Hcall.
      cbn [andb]. apply in_or_app. right. apply in_or_app. right.
      now left. }
    apply (count_occ_In Nat.eq_dec) in Hin. specialize (Hmost i). lia.
  - intros g' Hr. now rewrite Hs, (Hret g' Hr).
Qed.

Lemma generate_called_once_witness :
  count_occ Nat.eq_dec
    (generated
       (trace_of (generation_driver (demo_env true [] demo_dialogs "fine")
                    demo_config tt tt demo_dialogs 42))) 0%nat
  = 1%nat.
Proof.
  assert (Forall (fun check : checker => sr_is_safe (check "hello") = true)
                 demo_checkers) as Hall
    by (repeat constructor).
  exact (proj1 (proj2 (generate_called_once_per_safe_dialog
                         (demo_env true [] demo_dialogs "fine") demo_config
                         tt tt demo_dialogs 42))
           [[7]; [7; 7]; [7]] 0%nat demo_checkers
           [("role", "user"); ("content", "hello")] [] "hello" [] 42
           eq_refl eq_refl eq_refl eq_refl eq_refl Hall eq_refl).
Defined.

(** C5, counterexample.  A passed check does not by itself bring the call
    about: on a machine without CUDA the first dialog is screened, every
    enabled checker reports its first-turn content safe, "User prompt deemed
    safe." is printed, and the run then ends in the exception of
    [tokens.to("cuda:0")] without a single call of [model.generate]. *)
Lemma passing_prompt_without_generate_call :
  enabled_checkers cpu_only_env demo_config = Ok demo_checkers
  /\ nth_error demo_dialogs 0
     = Some [[("role", "user"); ("content", "hello")]]
  /\ Forall (fun check : checker => sr_is_safe (check "hello") = true)
            demo_checkers
  /\ input_check demo_dialogs 0 demo_checkers
     = ([ ECheck 0 "hello"; ECheck 1 "hello";
          EPrint "User prompt deemed safe.";
          EPrint ("User prompt:" ++ nl ++ " hello")%string;
          EPrint separator ], Ret tt)
  /\ can_call_generate cpu_only_env demo_config = false
  /\ count_occ Nat.eq_dec
       (generated (trace_of (main cpu_only_env demo_config))) 0%nat
     = 0%nat
  /\ result_of (main cpu_only_env demo_config) = Raise (LibraryError "torch").
Proof.
  repeat split; try reflexivity. repeat constructor.
Qed.

(** C8. In every iteration the checkers are called on the content of the
    first turn of [dialogs[idx]] and on nothing else before the verdict is
    printed; and whenever [model.generate] is called for a dialog, every
    enabled checker reports the content of the first turn of that dialog
    safe. *)
Theorem prompt_screened_is_first_turn_content (E : Env) (c : config)
    (m : model E) (tok : tokenizer E) (dialogs : list Dialog) (g : rng E) :
  (forall g0 idx chat cs turn later text,
     enabled_checkers E c = Ok cs ->
     nth_error dialogs idx = Some (turn :: later) ->
     dict_get "content" turn = Some text ->
     (exists rest,
        trace_of (step E c m tok dialogs g0 idx chat)
        = checker_event c
            :: map (fun k => ECheck k text) (seq 0 (length cs))
            ++ EPrint (if all_safe (verdicts text cs)
                       then "User prompt deemed safe."
                       else "User prompt deemed unsafe.")
            :: rest)
     /\ (generated (trace_of (step E c m tok dialogs g0 idx chat)) <> [] ->
         Forall (fun check => sr_is_safe (check text) = true) cs))
  /\ (forall k,
        In k (generated (trace_of (generation_driver E c m tok dialogs g))) ->
        exists cs turn later text,
          enabled_checkers E c = Ok cs
          /\ nth_error dialogs k = Some (turn :: later)
          /\ dict_get "content" turn = Some text
          /\ Forall (fun check => sr_is_safe (check text) = true) cs).
Proof.
  split.
  - intros g0 idx chat cs turn later text He Hn Hd.
    pose proof (prompt_of_first_turn _ _ _ _ _ Hn Hd) as Hp.
    split.
    + destruct (all_safe (verdicts text cs)) eqn:Hv.
      * rewrite (step_passes E c m tok dialogs g0 idx chat cs text He Hp Hv).
        cbn [trace_of fst]. unfold safe_prompt_lines. cbn [app].
        eexists. reflexivity.
      * rewrite (step_flagged E c m tok dialogs g0 idx chat cs text He Hp Hv).
        cbn [trace_of fst]. unfold unsafe_prompt_lines. eexists. reflexivity.
    + rewrite step_generated. unfold prompt_passes. rewrite He, Hp.
      destruct (all_safe (verdicts text cs)) eqn:Hv.
      * intros _. now apply all_safe_Forall.
      * intro H. now contradiction H.
  - intros k Hin.
    destruct (generated_generation_driver E c m tok dialogs g)
      as [n [_ [Hs [Hpass _]]]].
    rewrite Hs in Hin. apply in_seq in Hin.
    assert (prompt_passes E c dialogs k = true) as Hpp
      by (apply Hpass; lia).
    unfold prompt_passes in Hpp.
    destruct (enabled_checkers E c) as [cs | what]; [| discriminate].
    destruct (prompt_of dialogs k) as [text |] eqn:Hp; [| discriminate].
    destruct (prompt_of_inv dialogs k text Hp) as [turn [later [Hn Hd]]].
    exists cs, turn, later, text. repeat split; try assumption.
    now apply all_safe_Forall.
Qed.

Lemma prompt_screened_witness :
  exists rest,
    trace_of (step (demo_env true [] demo_dialogs "fine") demo_config tt tt
                   demo_dialogs 42 1 [7; 7])
    = EGetSafetyChecker false false true true
        :: [ECheck 0 "plan an attack"; ECheck 1 "plan an attack"]
        ++ EPrint "User prompt deemed unsafe." :: rest.
Proof.
  exact (proj1 (proj1 (prompt_screened_is_first_turn_content
                         (demo_env true [] demo_dialogs "fine") demo_config
                         tt tt demo_dialogs 42)
                  42 1%nat [7; 7] demo_checkers
                  [("role", "user"); ("content", "plan an attack")]
                  [[("role", "assistant"); ("content", "no")]]
                  "plan an attack" eq_refl eq_refl eq_refl)).
Defined.

(** C10. The first-turn access needs a turn.  For a dialog with no turn the
    iteration ends in an [IndexError] before any call of [model.generate]:
    raised by the input check when a checker is enabled, by the echo of the
    prompt when none is.  When every dialog has a turn the driver never ends
    in an [IndexError]; and a driver that returns had only dialogs with a
    turn. *)
Theorem first_turn_access_needs_a_turn (E : Env) (c : config)
    (m : model E) (tok : tokenizer E) (dialogs : list Dialog) (g : rng E) :
  (forall g0 idx chat cs,
     enabled_checkers E c = Ok cs ->
     nth_error dialogs idx = Some [] ->
     first_turn_content dialogs idx = raise IndexError
     /\ step E c m tok dialogs g0 idx chat
        = (checker_event c :: match cs with
                              | [] => [EPrint "User prompt deemed safe."]
                              | _ :: _ => []
                              end,
           Raise IndexError))
  /\ ((forall dialog, In dialog dialogs -> dialog <> []) ->
      result_of (generation_driver E c m tok dialogs g) <> Raise IndexError)
  /\ (forall g',
        result_of (generation_driver E c m tok dialogs g) = Ret g' ->
        forall dialog, In dialog dialogs -> dialog <> []).
Proof.
  split; [| split].
  - intros g0 idx chat cs He Hn.
    pose proof (first_turn_content_empty dialogs idx Hn) as Hf.
    split; [exact Hf |].
    assert (prompt_of dialogs idx = None) as Hp
      by (unfold prompt_of; now rewrite Hn).
    destruct (step_no_prompt E c m tok dialogs g0 idx chat cs He Hp)
      as [e [_ [Hf' ->]]].
    rewrite Hf in Hf'. now injection Hf' as <-.
  - intros Hne Hr.
    destruct (chats_of E tok dialogs) as [chats |] eqn:Hc.
    + rewrite (generation_driver_ok E c m tok dialogs g chats Hc) in Hr.
      destruct (mapM_template_ok E tok dialogs chats Hc) as [_ Hl].
      cbn [result_of snd] in Hr.
      destruct (driver_loop_IndexError E c m tok dialogs chats g 0
                  (trace_of (driver_loop E c m tok dialogs g 0 chats)))
        as [k [Hk [Hn | Hn]]].
      * rewrite <- Hr. apply surjective_M.
      * apply nth_error_None in Hn. lia.
      * apply (Hne []); [| reflexivity]. now apply nth_error_In with k.
    + destruct (generation_driver_fails E c m tok dialogs g Hc)
        as [t [what [Hf _]]].
      rewrite Hf in Hr. discriminate.
  - intros g' Hr dialog Hin ->.
    destruct (generated_generation_driver E c m tok dialogs g)
      as [n [_ [_ [Hpass Hret]]]].
    apply In_nth_error in Hin as [k Hk].
    assert (k < n)%nat as Hlt.
    { rewrite (Hret g' Hr). apply nth_error_Some. congruence. }
    specialize (Hpass k Hlt). unfold prompt_passes, prompt_of in Hpass.
    rewrite Hk in Hpass. now destruct (enabled_checkers E c).
Qed.

Lemma first_turn_access_witness :
  step (demo_env true [] [[]] "fine") demo_config tt tt [[]] 42 0 []
  = ([EGetSafetyChecker false false true true], Raise IndexError)
  /\ result_of (generation_driver (demo_env true [] demo_dialogs "fine")
                  demo_config tt tt demo_dialogs 42)
     <> Raise IndexError.
Proof.
  split.
  - exact (proj2 (proj1 (first_turn_access_needs_a_turn
                           (demo_env true [] [[]] "fine") demo_config
                           tt tt [[]] 42)
                    42 0%nat [] demo_checkers eq_refl eq_refl)).
  - apply (proj1 (proj2 (first_turn_access_needs_a_turn
                           (demo_env true [] demo_dialogs "fine") demo_config
                           tt tt demo_dialogs 42))).
    intros dialog [<- | [<- | [<- | []]]]; discriminate.
Defined.

(** * Further properties of [main] *)

(** ** Which actions a piece of the script can perform *)

Section Kinds.

Variable p : event -> bool.

Lemma kinds_bind A B (m : M A) (f : A -> M B) :
  forallb p (trace_of m) = true ->
  (forall a, forallb p (trace_of (f a)) = true) ->
  forallb p (trace_of (bind m f)) = true.
Proof.
  intros Hm Hf. rewrite trace_bind, forallb_app, Hm.
  destruct (result_of m); cbn; auto.
Qed.

Lemma kinds_emit (e : event) :
  p e = true -> forallb p (trace_of (emit e)) = true.
Proof. intro H. cbn. now rewrite H. Qed.

Lemma kinds_call A (e : event) (r : res A) :
  p e = true -> forallb p (trace_of (call e r)) = true.
Proof. intro H. destruct r; cbn; now rewrite H. Qed.

Lemma filter_kinds (q : event -> bool) (t : list event) :
  forallb p t = true ->
  (forall e, p e = true -> q e = false) ->
  filter q t = [].
Proof.
  intros Ht Hq. induction t as [| e t IH]; [reflexivity |].
  cbn in Ht. apply andb_true_iff in Ht as [He Ht].
  cbn. now rewrite (Hq e He), IH.
Qed.

End Kinds.

Lemma dialog_source_kinds (E : Env) (c : config) :
  forallb source_event (trace_of (dialog_source E c)) = true.
Proof.
  unfold dialog_source. destruct (prompt_file c) as [path |].
  - destruct (path_exists E path); [| reflexivity].
    now destruct (read_dialogs_from_file E path).
  - destruct (stdin_isatty E); [reflexivity |].
    cbn [negb]. now destruct (json_loads E _).
Qed.

Lemma preamble_kinds (E : Env) (c : config) (dialogs : list Dialog) :
  forallb preamble_event (preamble E c dialogs) = true.
Proof. unfold preamble. now destruct (is_xpu_available E). Qed.

Lemma load_runtime_kinds (E : Env) (c : config) :
  forallb load_event (trace_of (load_runtime E c)) = true.
Proof.
  unfold load_runtime.
  apply kinds_bind; [now apply kinds_call |]. intro m0.
  apply kinds_bind.
  - destruct (peft_model c) as [p |]; [| reflexivity].
    destruct (String.eqb p ""); [reflexivity | now apply kinds_call].
  - intro m1. apply kinds_bind; [now apply kinds_call | reflexivity].
Qed.

Lemma run_checks_kinds (text : M string) (cs : list checker) : forall k,
  trace_of text = [] ->
  forallb driver_event (trace_of (run_checks text k cs)) = true.
Proof.
  induction cs as [| check rest IH]; intros k Ht; [reflexivity |].
  cbn [run_checks]. apply kinds_bind; [now rewrite Ht |]. intro t.
  apply kinds_bind; [reflexivity |]. intros _.
  apply kinds_bind; [now apply IH | reflexivity].
Qed.

Lemma first_turn_content_silent (dialogs : list Dialog) (idx : nat) :
  trace_of (first_turn_content dialogs idx) = [].
Proof.
  unfold first_turn_content.
  destruct (nth_error dialogs idx) as [[| turn later] |]; try reflexivity.
  now destruct (dict_get "content" turn).
Qed.

Lemma report_unsafe_kinds (rs : list SafetyResult) :
  forallb driver_event (trace_of (report_unsafe rs)) = true.
Proof.
  rewrite report_unsafe_eq. cbn [trace_of fst].
  induction rs as [| r rest IH]; [reflexivity |].
  cbn. destruct (sr_is_safe r); cbn; exact IH.
Qed.

Lemma input_check_kinds (dialogs : list Dialog) (idx : nat)
    (cs : list checker) :
  forallb driver_event (trace_of (input_check dialogs idx cs)) = true.
Proof.
  unfold input_check. apply kinds_bind.
  - apply run_checks_kinds, first_turn_content_silent.
  - intro rs. destruct (all_safe rs).
    + apply kinds_bind; [reflexivity |]. intros _.
      apply kinds_bind; [now rewrite first_turn_content_silent |].
      intro content. reflexivity.
    + apply kinds_bind; [reflexivity |]. intros _.
      apply kinds_bind; [apply report_unsafe_kinds | reflexivity].
Qed.

Lemma output_check_kinds (text : string) (cs : list checker) :
  forallb driver_event (trace_of (output_check text cs)) = true.
Proof.
  unfold output_check. apply kinds_bind.
  - now apply run_checks_kinds.
  - intro rs. destruct (all_safe rs); [reflexivity |].
    apply kinds_bind; [reflexivity |]. intros _. apply report_unsafe_kinds.
Qed.

Lemma generate_text_kinds (E : Env) (c : config) m tok g idx chat :
  forallb driver_event (trace_of (generate_text E c m tok g idx chat)) = true.
Proof.
  destruct (can_call_generate E c) eqn:Hc.
  - rewrite (generate_text_called E c m tok g idx chat Hc). cbn [trace_of fst].
    now destruct (generate E m g (generate_kwargs E c chat)) as [[o g'] |].
  - destruct (generate_text_not_called E c m tok g idx chat Hc) as [e [-> _]].
    reflexivity.
Qed.

Lemma step_kinds (E : Env) (c : config) m tok dialogs g idx chat :
  forallb driver_event (trace_of (step E c m tok dialogs g idx chat)) = true.
Proof.
  rewrite step_unfold. destruct (enabled_checkers E c) as [cs | what];
    [| reflexivity].
  apply kinds_bind; [reflexivity |]. intros _.
  apply kinds_bind; [apply input_check_kinds |]. intros _.
  apply kinds_bind; [apply generate_text_kinds |]. intro out.
  apply kinds_bind; [apply output_check_kinds | reflexivity].
Qed.

Lemma driver_loop_kinds (E : Env) (c : config) m tok dialogs chats :
  forall g idx,
  forallb driver_event (trace_of (driver_loop E c m tok dialogs g idx chats))
  = true.
Proof.
  induction chats as [| chat rest IH]; intros g idx; [reflexivity |].
  rewrite driver_loop_cons. apply kinds_bind; [apply step_kinds |].
  intro g'. apply IH.
Qed.

Lemma generation_driver_kinds (E : Env) (c : config) m tok dialogs g :
  forallb driver_event (trace_of (generation_driver E c m tok dialogs g))
  = true.
Proof.
  unfold generation_driver. apply kinds_bind.
  - induction dialogs as [| dialog rest IH]; [reflexivity |].
    cbn [mapM]. apply kinds_bind; [now apply kinds_call |]. intro chat.
    apply kinds_bind; [exact IH | reflexivity].
  - intro chats. apply driver_loop_kinds.
Qed.

(** ** [main] as its four phases *)

Lemma main_unfold (E : Env) (c : config) :
  main E c
  = match dialog_source E c with
    | (t0, Ret dialogs) =>
        match manual_seed E (seed c) with
        | Ok g =>
            match load_runtime E c with
            | (t1, Ret (m, tok)) =>
                (t0 ++ preamble E c dialogs ++ t1
                   ++ trace_of (generation_driver E c m tok dialogs g),
                 ending (result_of (generation_driver E c m tok dialogs g)))
            | (t1, Exit code) => (t0 ++ preamble E c dialogs ++ t1, Exit code)
            | (t1, Raise e) => (t0 ++ preamble E c dialogs ++ t1, Raise e)
            end
        | Err what =>
            (t0 ++ preamble E c dialogs ++ [], Raise (LibraryError what))
        end
    | (t0, Exit code) => (t0, Exit code)
    | (t0, Raise e) => (t0, Raise e)
    end.
Proof.
  unfold main.
  destruct (dialog_source E c) as [t0 [dialogs | code | e]];
    [| reflexivity | reflexivity].
  rewrite bind_Ret. unfold print, emit.
  rewrite !bind_Ret, set_seeds_eq.
  destruct (manual_seed E (seed c)) as [g | what].
  - rewrite bind_Ret.
    destruct (load_runtime E c) as [t1 [[m tok] | code | e]].
    + rewrite bind_Ret.
      destruct (generation_driver E c m tok dialogs g)
        as [t2 [g' | code | e]];
        cbn [trace_of result_of fst snd ending bind ret];
        unfold preamble; cbn [app]; rewrite ?app_nil_r; reflexivity.
    + rewrite bind_Exit. cbn [trace_of result_of fst snd]. unfold preamble.
      cbn [app]. now rewrite ?app_nil_r.
    + rewrite bind_Raise. cbn [trace_of result_of fst snd]. unfold preamble.
      cbn [app]. now rewrite ?app_nil_r.
  - rewrite bind_Raise. cbn [trace_of result_of fst snd]. unfold preamble.
    cbn [app]. reflexivity.
Qed.

(** ** How the pieces can end *)

Lemma dialog_source_Exit (E : Env) (c : config) t code :
  dialog_source E c = (t, Exit code) ->
  code = 1
  /\ exists t' line,
       t = t' ++ [EPrint line]
       /\ (line = "Could not parse json from stdin. Please provide a json file with the user prompts. Exiting."
           \/ line = "No user prompt provided. Exiting.").
Proof.
  unfold dialog_source. destruct (prompt_file c) as [path |].
  - destruct (path_exists E path); [| discriminate].
    destruct (read_dialogs_from_file E path); discriminate.
  - destruct (stdin_isatty E); cbn [negb].
    + intros [= <- <-]. split; [reflexivity |].
      exists [EStdinIsatty], "No user prompt provided. Exiting.". auto.
    + destruct (json_loads E _) eqn:Hj; [discriminate |].
      intros [= <- <-]. split; [reflexivity |].
      eexists [EStdinIsatty; EStdinReadlines; EJsonLoads _], _.
      split; [reflexivity | now left].
Qed.

Lemma load_runtime_no_exit (E : Env) (c : config) t code :
  load_runtime E c <> (t, Exit code).
Proof.
  destruct (load_runtime_cases E c) as [t1 [_ [[m [tok ->]] | [what ->]]]];
    discriminate.
Qed.

Lemma generated_load_runtime (E : Env) (c : config) :
  generated (trace_of (load_runtime E c)) = [].
Proof.
  destruct (load_runtime_cases E c) as [t1 [Ht [[m [tok ->]] | [what ->]]]];
    exact Ht.
Qed.

Lemma generate_text_no_exit (E : Env) (c : config) m tok g idx chat t code :
  generate_text E c m tok g idx chat <> (t, Exit code).
Proof.
  destruct (can_call_generate E c) eqn:Hc.
  - rewrite (generate_text_called E c m tok g idx chat Hc).
    destruct (generate E m g (generate_kwargs E c chat)) as [[o g'] |];
      [| discriminate].
    destruct (decode E tok o true); discriminate.
  - destruct (generate_text_not_called E c m tok g idx chat Hc) as [e [-> _]].
    discriminate.
Qed.

(** The ways an iteration can go, by what decides them. *)
Lemma step_cases (E : Env) (c : config) m tok dialogs g idx chat :
  (exists what, enabled_checkers E c = Err what
     /\ step E c m tok dialogs g idx chat
        = ([checker_event c], Raise (LibraryError what)))
  \/ (exists cs, enabled_checkers E c = Ok cs
        /\ prompt_of dialogs idx = None
        /\ exists e, (e = IndexError \/ e = KeyError "content")
             /\ first_turn_content dialogs idx = raise e
             /\ step E c m tok dialogs g idx chat
                = (checker_event c
                     :: match cs with
                        | [] => [EPrint "User prompt deemed safe."]
                        | _ :: _ => []
                        end, Raise e))
  \/ (exists cs text, enabled_checkers E c = Ok cs
        /\ prompt_of dialogs idx = Some text
        /\ all_safe (verdicts text cs) = false
        /\ step E c m tok dialogs g idx chat
           = (checker_event c :: check_events 0 text cs
                ++ unsafe_prompt_lines (verdicts text cs), Exit 1))
  \/ (exists cs text, enabled_checkers E c = Ok cs
        /\ prompt_of dialogs idx = Some text
        /\ all_safe (verdicts text cs) = true
        /\ step E c m tok dialogs g idx chat
           = (checker_event c :: check_events 0 text cs
                ++ safe_prompt_lines text
                ++ trace_of (generate_text E c m tok g idx chat)
                ++ match result_of (generate_text E c m tok g idx chat) with
                   | Ret (output_text, _) =>
                       check_events 0 output_text cs
                       ++ output_lines output_text (verdicts output_text cs)
                   | _ => []
                   end,
              match result_of (generate_text E c m tok g idx chat) with
              | Ret (_, g') => Ret g'
              | Exit code => Exit code
              | Raise e => Raise e
              end)).
Proof.
  destruct (enabled_checkers E c) as [cs | what] eqn:He.
  - destruct (prompt_of dialogs idx) as [text |] eqn:Hp.
    + destruct (all_safe (verdicts text cs)) eqn:Hv.
      * right. right. right. exists cs, text. repeat split; try assumption.
        exact (step_passes E c m tok dialogs g idx chat cs text He Hp Hv).
      * right. right. left. exists cs, text. repeat split; try assumption.
        exact (step_flagged E c m tok dialogs g idx chat cs text He Hp Hv).
    + right. left. exists cs. split; [reflexivity | split; [reflexivity |]].
      exact (step_no_prompt E c m tok dialogs g idx chat cs He Hp).
  - left. exists what. split; [reflexivity |]. now rewrite step_unfold, He.
Qed.

Lemma step_Exit (E : Env) (c : config) m tok dialogs g idx chat t code :
  step E c m tok dialogs g idx chat = (t, Exit code) ->
  code = 1 /\ exists t', t = t' ++ [EPrint skipping_line].
Proof.
  intro H.
  destruct (step_cases E c m tok dialogs g idx chat)
    as [[what [_ Hs]] | [[cs [_ [_ [e [_ [_ Hs]]]]]]
        | [[cs [text [_ [_ [_ Hs]]]]] | [cs [text [_ [_ [_ Hs]]]]]]]];
    rewrite Hs in H; try discriminate.
  - injection H as <- <-. split; [reflexivity |].
    unfold unsafe_prompt_lines.
    exists (checker_event c :: check_events 0 text cs
              ++ EPrint "User prompt deemed unsafe."
              :: unsafe_reports (verdicts text cs)).
    cbn [app]. now rewrite <- !app_assoc.
  - exfalso.
    destruct (generate_text E c m tok g idx chat) as [t2 [[o g'] | code' | e]]
      eqn:Hg; cbn [result_of snd] in H; try discriminate.
    exact (generate_text_no_exit E c m tok g idx chat t2 code' Hg).
Qed.

Lemma driver_loop_Exit (E : Env) (c : config) m tok dialogs chats :
  forall g idx t code,
  driver_loop E c m tok dialogs g idx chats = (t, Exit code) ->
  code = 1 /\ exists t', t = t' ++ [EPrint skipping_line].
Proof.
  induction chats as [| chat rest IH]; intros g idx t code H.
  - discriminate.
  - rewrite driver_loop_cons in H.
    destruct (step E c m tok dialogs g idx chat) as [t1 [g1 | code1 | e]] eqn:Hs.
    + rewrite bind_Ret in H. injection H as <- Hr.
      destruct (IH g1 (S idx)
                  (trace_of (driver_loop E c m tok dialogs g1 (S idx) rest))
                  code) as [-> [t' Ht']].
      * rewrite <- Hr. apply surjective_M.
      * split; [reflexivity |]. exists (t1 ++ t'). now rewrite Ht', app_assoc.
    + injection H as <- <-. exact (step_Exit E c m tok dialogs g idx chat _ _ Hs).
    + discriminate.
Qed.

Lemma generation_driver_Exit (E : Env) (c : config) m tok dialogs g t code :
  generation_driver E c m tok dialogs g = (t, Exit code) ->
  code = 1 /\ exists t', t = t' ++ [EPrint skipping_line].
Proof.
  intro H. destruct (chats_of E tok dialogs) as [chats |] eqn:Hc.
  - rewrite (generation_driver_ok E c m tok dialogs g chats Hc) in H.
    injection H as <- Hr.
    destruct (driver_loop_Exit E c m tok dialogs chats g 0
                (trace_of (driver_loop E c m tok dialogs g 0 chats)) code)
      as [-> [t' Ht']].
    + rewrite <- Hr. apply surjective_M.
    + split; [reflexivity |].
      exists (map EApplyChatTemplate dialogs ++ t'). now rewrite Ht', app_assoc.
  - destruct (generation_driver_fails E c m tok dialogs g Hc)
      as [t1 [what [Hf _]]].
    rewrite Hf in H. discriminate.
Qed.

(** ** Exit status *)

(** X1. The exit status of a run is 0 or 1.  It is 0 only when the dialogs
    were read, the first-turn content of every dialog passed every enabled
    checker, and [model.generate] was called once for each dialog, in the
    order of the list. *)
Theorem exit_status_zero_means_every_dialog_served (E : Env) (c : config) :
  (exit_status (result_of (main E c)) = 0
   \/ exit_status (result_of (main E c)) = 1)
  /\ (exit_status (result_of (main E c)) = 0 ->
      exists dialogs,
        result_of (dialog_source E c) = Ret dialogs
        /\ generated (trace_of (main E c)) = seq 0 (length dialogs)
        /\ forall k, (k < length dialogs)%nat ->
                     prompt_passes E c dialogs k = true).
Proof.
  rewrite main_unfold.
  pose proof (generated_dialog_source E c) as Gs.
  pose proof (generated_load_runtime E c) as Gl.
  destruct (dialog_source E c) as [t0 [dialogs | code | e]] eqn:Hsrc.
  - destruct (manual_seed E (seed c)) as [g0 | what0];
      [| cbn; split; [now right | discriminate]].
    destruct (load_runtime E c) as [t1 [[m tok] | code | e]] eqn:Hl.
    + cbn [trace_of result_of fst snd] in *.
      destruct (generated_generation_driver E c m tok dialogs g0)
        as [n [_ [Hs [Hpass Hret]]]].
      destruct (generation_driver E c m tok dialogs g0)
        as [t2 [g' | code | e]] eqn:Hd; cbn [trace_of result_of fst snd ending exit_status] in *.
      * split; [now left |]. intros _. exists dialogs.
        split; [reflexivity |].
        rewrite !generated_app, Gs, Gl, generated_preamble, Hs. cbn [app].
        rewrite <- (Hret g' eq_refl). split; [reflexivity | exact Hpass].
      * destruct (generation_driver_Exit E c m tok dialogs _ _ _ Hd) as [-> _].
        split; [now right | discriminate].
      * split; [now right | discriminate].
    + exfalso. exact (load_runtime_no_exit E c t1 code Hl).
    + cbn. split; [now right | discriminate].
  - destruct (dialog_source_Exit E c t0 code Hsrc) as [-> _].
    cbn. split; [now right | discriminate].
  - cbn. split; [now right | discriminate].
Qed.

Lemma exit_status_zero_witness :
  exists dialogs,
    result_of (dialog_source
                 (demo_env true [] [[[("role", "user"); ("content", "hello")]]]
                           "fine") demo_config) = Ret dialogs
    /\ generated
         (trace_of (main (demo_env true []
                            [[[("role", "user"); ("content", "hello")]]] "fine")
                         demo_config))
       = seq 0 (length dialogs)
    /\ forall k, (k < length dialogs)%nat ->
                 prompt_passes
                   (demo_env true []
                      [[[("role", "user"); ("content", "hello")]]] "fine")
                   demo_config dialogs k = true.
Proof.
  exact (proj2 (exit_status_zero_means_every_dialog_served
                  (demo_env true [] [[[("role", "user"); ("content", "hello")]]]
                            "fine") demo_config) eq_refl).
Defined.

(** X2. [sys.exit] is never silent: a run that ends in [sys.exit] ends with
    status 1, and the last thing it did was to print one of the three
    diagnostics of the script. *)
Theorem sys_exit_follows_a_diagnostic (E : Env) (c : config)
    (t : list event) (code : Z) :
  main E c = (t, Exit code) ->
  code = 1
  /\ exists t' line,
       t = t' ++ [EPrint line]
       /\ (line = "Could not parse json from stdin. Please provide a json file with the user prompts. Exiting."
           \/ line = "No user prompt provided. Exiting."
           \/ line = "Skipping the inferece as the prompt is not safe.").
Proof.
  rewrite main_unfold.
  destruct (dialog_source E c) as [t0 [dialogs | code0 | e]] eqn:Hsrc.
  - destruct (manual_seed E (seed c)) as [g0 | what0]; [| discriminate].
    destruct (load_runtime E c) as [t1 [[m tok] | code1 | e]] eqn:Hl.
    + destruct (generation_driver E c m tok dialogs g0)
        as [t2 [g' | code2 | e]] eqn:Hd;
        cbn [trace_of result_of fst snd ending]; try discriminate.
      intros [= <- <-].
      destruct (generation_driver_Exit E c m tok dialogs _ _ _ Hd)
        as [-> [t' ->]].
      split; [reflexivity |].
      exists (t0 ++ preamble E c dialogs ++ t1 ++ t'), skipping_line.
      split; [now rewrite <- !app_assoc | now right; right].
    + exfalso. exact (load_runtime_no_exit E c t1 code1 Hl).
    + discriminate.
  - intros [= <- <-].
    destruct (dialog_source_Exit E c t0 code0 Hsrc)
      as [-> [t' [line [-> Hline]]]].
    split; [reflexivity |]. exists t', line. split; [reflexivity |].
    destruct Hline as [-> | ->]; auto.
  - discriminate.
Qed.

Lemma sys_exit_follows_a_diagnostic_witness :
  exists t' line,
    trace_of (main (demo_env true [] demo_dialogs "fine") demo_config)
    = t' ++ [EPrint line]
    /\ (line = "Could not parse json from stdin. Please provide a json file with the user prompts. Exiting."
        \/ line = "No user prompt provided. Exiting."
        \/ line = "Skipping the inferece as the prompt is not safe.").
Proof.
  exact (proj2 (sys_exit_follows_a_diagnostic
                  (demo_env true [] demo_dialogs "fine") demo_config
                  (trace_of (main (demo_env true [] demo_dialogs "fine")
                                  demo_config))
                  1 eq_refl)).
Defined.

(** ** The model is loaded first, and once *)

Lemma model_protocol_skip (p : event -> bool) (t1 t2 : list event) (b : bool) :
  forallb p t1 = true ->
  (forall e, p e = true -> is_load_model e = false) ->
  (forall e, p e = true -> after_load_model e = false) ->
  model_protocol b (t1 ++ t2) = model_protocol b t2.
Proof.
  intros Ht Hl Ha. induction t1 as [| e t1 IH]; [reflexivity |].
  cbn in Ht. apply andb_true_iff in Ht as [He Ht].
  cbn [app model_protocol]. now rewrite (Hl e He), (Ha e He), IH.
Qed.

Lemma model_protocol_loaded (t : list event) :
  forallb (fun e => negb (is_load_model e)) t = true ->
  model_protocol true t = true.
Proof.
  induction t as [| e t IH]; [reflexivity |]. cbn.
  intro H. apply andb_true_iff in H as [He Ht].
  apply negb_true_iff in He. rewrite He.
  destruct (after_load_model e); cbn; now apply IH.
Qed.

Lemma model_protocol_split (t1 : list event) : forall b e t2,
  model_protocol b (t1 ++ e :: t2) = true ->
  after_load_model e = true ->
  b || loads_model t1 = true.
Proof.
  induction t1 as [| e1 t1 IH]; intros b e t2 H He.
  - cbn [app model_protocol] in H.
    assert (is_load_model e = false) as Hl by now destruct e.
    rewrite Hl, He in H. apply andb_true_iff in H as [-> _]. reflexivity.
  - cbn [app model_protocol] in H.
    change (loads_model (e1 :: t1)) with (is_load_model e1 || loads_model t1).
    destruct (is_load_model e1).
    + now rewrite orb_true_r.
    + destruct (after_load_model e1).
      * apply andb_true_iff in H as [-> _]. reflexivity.
      * exact (IH b e t2 H He).
Qed.

Lemma model_protocol_count (t : list event) : forall b,
  model_protocol b t = true ->
  (length (filter is_load_model t) <= if b then 0 else 1)%nat.
Proof.
  induction t as [| e t IH]; intros b H.
  - destruct b; cbn; lia.
  - cbn [model_protocol] in H. cbn [filter].
    destruct (is_load_model e).
    + apply andb_true_iff in H as [Hb H]. apply negb_true_iff in Hb. subst b.
      specialize (IH true H). cbn in *. lia.
    + destruct (after_load_model e).
      * apply andb_true_iff in H as [_ H]. exact (IH b H).
      * exact (IH b H).
Qed.

Lemma load_runtime_trace (E : Env) (c : config) :
  exists rest,
    trace_of (load_runtime E c)
    = ELoadModel (model_name c) (quantization c) (use_fast_kernels c) (kwargs c)
        :: rest
    /\ forallb (fun e => load_event e && negb (is_load_model e)) rest = true.
Proof.
  unfold load_runtime. rewrite trace_bind.
  destruct (load_model E (model_name c) (quantization c) (use_fast_kernels c)
              (kwargs c)) as [m0 | what]; cbn [call trace_of result_of fst snd app].
  - eexists. split; [reflexivity |].
    apply kinds_bind.
    + destruct (peft_model c) as [p |]; [| reflexivity].
      destruct (String.eqb p ""); [reflexivity | now apply kinds_call].
    + intro m1. apply kinds_bind; [now apply kinds_call | reflexivity].
  - exists []. split; reflexivity.
Qed.

Lemma main_model_protocol (E : Env) (c : config) :
  model_protocol false (trace_of (main E c)) = true.
Proof.
  rewrite main_unfold.
  pose proof (dialog_source_kinds E c) as Ks.
  destruct (load_runtime_trace E c) as [rest [Hl Kl]].
  assert (forall e, source_event e = true -> is_load_model e = false) as S1
    by (intros []; cbn; congruence).
  assert (forall e, source_event e = true -> after_load_model e = false) as S2
    by (intros []; cbn; congruence).
  assert (forall e, preamble_event e = true -> is_load_model e = false) as P1
    by (intros []; cbn; congruence).
  assert (forall e, preamble_event e = true -> after_load_model e = false) as P2
    by (intros []; cbn; congruence).
  assert (forall t, forallb (fun e => load_event e && negb (is_load_model e)) t
                    = true ->
                    forallb (fun e => negb (is_load_model e)) t = true) as L1.
  { intros t Ht. rewrite forallb_forall in *. intros e He.
    specialize (Ht e He). now apply andb_true_iff in Ht as [_ ->]. }
  assert (forall t, forallb driver_event t = true ->
                    forallb (fun e => negb (is_load_model e)) t = true) as D1.
  { intros t Ht. rewrite forallb_forall in *. intros e He.
    specialize (Ht e He). now destruct e. }
  destruct (dialog_source E c) as [t0 [dialogs | code | e]];
    cbn [trace_of fst] in Ks.
  - destruct (manual_seed E (seed c)) as [g0 | what0].
    2:{ cbn [trace_of fst].
        rewrite (model_protocol_skip source_event _ _ _ Ks S1 S2).
        now rewrite (model_protocol_skip preamble_event _ _ _
                       (preamble_kinds E c dialogs) P1 P2). }
    destruct (load_runtime E c) as [t1 [[m tok] | code | e]];
      cbn [trace_of fst] in Hl; subst t1; cbn [trace_of fst].
    + rewrite (model_protocol_skip source_event _ _ _ Ks S1 S2).
      rewrite (model_protocol_skip preamble_event _ _ _
                 (preamble_kinds E c dialogs) P1 P2).
      cbn [app model_protocol is_load_model negb andb].
      apply model_protocol_loaded. rewrite forallb_app, (L1 _ Kl).
      apply D1, generation_driver_kinds.
    + rewrite (model_protocol_skip source_event _ _ _ Ks S1 S2).
      rewrite (model_protocol_skip preamble_event _ _ _
                 (preamble_kinds E c dialogs) P1 P2).
      cbn [app model_protocol is_load_model negb andb].
      apply model_protocol_loaded, L1, Kl.
    + rewrite (model_protocol_skip source_event _ _ _ Ks S1 S2).
      rewrite (model_protocol_skip preamble_event _ _ _
                 (preamble_kinds E c dialogs) P1 P2).
      cbn [app model_protocol is_load_model negb andb].
      apply model_protocol_loaded, L1, Kl.
  - cbn [trace_of fst]. rewrite <- (app_nil_r t0).
    now rewrite (model_protocol_skip source_event _ _ _ Ks S1 S2).
  - cbn [trace_of fst]. rewrite <- (app_nil_r t0).
    now rewrite (model_protocol_skip source_event _ _ _ Ks S1 S2).
Qed.

(** X3. In every run [load_model] is called at most once, and whatever
    needs the model or its tokenizer (loading the adapter or the tokenizer,
    templating, building or calling a safety checker, generating, decoding)
    comes after that call: an unsafe prompt is found only once the model is
    loaded. *)
Theorem model_is_loaded_once_and_first (E : Env) (c : config) :
  (length (filter is_load_model (trace_of (main E c))) <= 1)%nat
  /\ (forall t1 e t2,
        trace_of (main E c) = t1 ++ e :: t2 ->
        after_load_model e = true ->
        loads_model t1 = true).
Proof.
  pose proof (main_model_protocol E c) as H. split.
  - exact (model_protocol_count _ false H).
  - intros t1 e t2 Ht He. rewrite Ht in H.
    exact (model_protocol_split t1 false e t2 H He).
Qed.

Lemma model_is_loaded_first_witness :
  loads_model
    [ EPathExists "prompts.json"; EReadDialogs "prompts.json";
      EPrint ("User dialogs:" ++ nl ++ "<dialogs>")%string; EPrint separator;
      EIsXpuAvailable; ESeedCuda 42; ESeedTorch 42;
      ELoadModel "llama" None false []; EFromPretrained "llama";
      EApplyChatTemplate [[("role", "user"); ("content", "hello")]];
      EApplyChatTemplate
        [[("role", "user"); ("content", "plan an attack")];
         [("role", "assistant"); ("content", "no")]];
      EApplyChatTemplate [[("role", "user"); ("content", "bye")]] ]
  = true.
Proof.
  exact (proj2 (model_is_loaded_once_and_first
                  (demo_env true [] demo_dialogs "fine") demo_config)
           (firstn 12 (trace_of (main (demo_env true [] demo_dialogs "fine")
                                      demo_config)))
           (EGetSafetyChecker false false true true)
           (skipn 13 (trace_of (main (demo_env true [] demo_dialogs "fine")
                                     demo_config)))
           eq_refl eq_refl).
Defined.

(** ** Seeding *)

Lemma split_at_the_only (p : event -> bool) (A : list event) :
  forall x B t1 y t2,
  forallb (fun e => negb (p e)) A = true ->
  forallb (fun e => negb (p e)) B = true ->
  p x = true -> p y = true ->
  A ++ x :: B = t1 ++ y :: t2 ->
  t1 = A /\ t2 = B.
Proof.
  induction A as [| a A IH]; intros x B t1 y t2 HA HB Hx Hy H.
  - destruct t1 as [| z t1]; cbn [app] in H.
    + now injection H as _ <-.
    + injection H as _ ->. rewrite forallb_app in HB. cbn in HB.
      rewrite Hy in HB. cbn in HB. rewrite andb_false_r in HB. discriminate.
  - cbn in HA. apply andb_true_iff in HA as [Ha HA].
    destruct t1 as [| z t1]; cbn [app] in H.
    + injection H as -> _. rewrite Hy in Ha. discriminate.
    + injection H as <- H.
      destruct (IH x B t1 y t2 HA HB Hx Hy H) as [-> ->]. now split.
Qed.

(** X4. A run that reads its dialogs seeds the generators exactly once, with
    the seed of the command line: the device generator (XPU when there is
    one, CUDA otherwise), then the global one.  A run that does not read its
    dialogs seeds nothing.  Nothing is seeded after [load_model] is called:
    in particular the loop does not reseed between dialogs. *)
Theorem seeded_once_before_the_model_is_loaded (E : Env) (c : config) :
  filter is_seed_event (trace_of (main E c))
  = match result_of (dialog_source E c) with
    | Ret _ => [ if is_xpu_available E then ESeedXpu (seed c)
                 else ESeedCuda (seed c);
                 ESeedTorch (seed c) ]
    | _ => []
    end
  /\ (forall t1 e t2,
        trace_of (main E c) = t1 ++ e :: t2 ->
        is_load_model e = true ->
        filter is_seed_event t2 = []).
Proof.
  rewrite main_unfold.
  pose proof (dialog_source_kinds E c) as Ks.
  destruct (load_runtime_trace E c) as [rest [Hl Kl]].
  assert (forall e, source_event e = true -> is_seed_event e = false) as S1
    by (intros []; cbn; congruence).
  assert (forall e, load_event e && negb (is_load_model e) = true ->
                    is_seed_event e = false) as L1
    by (intros []; cbn; congruence).
  assert (forall e, driver_event e = true -> is_seed_event e = false) as D1
    by (intros []; cbn; congruence).
  assert (forall dialogs,
            filter is_seed_event (preamble E c dialogs)
            = [ if is_xpu_available E then ESeedXpu (seed c)
                else ESeedCuda (seed c);
                ESeedTorch (seed c) ]) as P1
    by (intro dialogs; unfold preamble; now destruct (is_xpu_available E)).
  assert (forall t, forallb source_event t = true ->
                    forallb (fun e => negb (is_load_model e)) t = true) as NS.
  { intros t Ht. rewrite forallb_forall in *. intros e He.
    specialize (Ht e He). now destruct e. }
  assert (forall t, forallb preamble_event t = true ->
                    forallb (fun e => negb (is_load_model e)) t = true) as NP.
  { intros t Ht. rewrite forallb_forall in *. intros e He.
    specialize (Ht e He). now destruct e. }
  assert (forall t, forallb (fun e => load_event e && negb (is_load_model e)) t
                    = true ->
                    forallb (fun e => negb (is_load_model e)) t = true) as NL.
  { intros t Ht. rewrite forallb_forall in *. intros e He.
    specialize (Ht e He). now apply andb_true_iff in Ht as [_ ->]. }
  assert (forall t, forallb driver_event t = true ->
                    forallb (fun e => negb (is_load_model e)) t = true) as ND.
  { intros t Ht. rewrite forallb_forall in *. intros e He.
    specialize (Ht e He). now destruct e. }
  assert (forall t0 dialogs td,
            forallb source_event t0 = true ->
            forallb driver_event td = true ->
            filter is_seed_event
              (t0 ++ preamble E c dialogs
                 ++ (ELoadModel (model_name c) (quantization c)
                                (use_fast_kernels c) (kwargs c) :: rest) ++ td)
            = [ if is_xpu_available E then ESeedXpu (seed c)
                else ESeedCuda (seed c);
                ESeedTorch (seed c) ]
            /\ (forall t1 e t2,
                  t0 ++ preamble E c dialogs
                    ++ (ELoadModel (model_name c) (quantization c)
                                   (use_fast_kernels c) (kwargs c) :: rest)
                    ++ td
                  = t1 ++ e :: t2 ->
                  is_load_model e = true ->
                  filter is_seed_event t2 = [])) as Main.
  { intros t0 dialogs td K0 Kd. split.
    - rewrite !filter_app, (filter_kinds source_event _ t0 K0 S1), P1.
      cbn [app filter is_seed_event].
      rewrite (filter_kinds _ _ rest Kl L1), (filter_kinds _ _ td Kd D1).
      reflexivity.
    - intros t1 e t2 Ht He.
      rewrite app_assoc in Ht. cbn [app] in Ht.
      destruct (split_at_the_only is_load_model
                  (t0 ++ preamble E c dialogs)
                  (ELoadModel (model_name c) (quantization c)
                              (use_fast_kernels c) (kwargs c))
                  (rest ++ td) t1 e t2) as [_ ->]; try assumption.
      + rewrite forallb_app, (NS _ K0), (NP _ (preamble_kinds E c dialogs)).
        reflexivity.
      + rewrite forallb_app, (NL _ Kl), (ND _ Kd). reflexivity.
      + reflexivity.
      + rewrite filter_app, (filter_kinds _ _ rest Kl L1),
          (filter_kinds _ _ td Kd D1). reflexivity. }
  assert (forall t0, forallb source_event t0 = true ->
            filter is_seed_event t0 = []
            /\ (forall t1 e t2, t0 = t1 ++ e :: t2 ->
                  is_load_model e = true -> filter is_seed_event t2 = []))
    as Fail.
  { intros t0 K0. split; [exact (filter_kinds _ _ t0 K0 S1) |].
    intros t1 e t2 -> He. exfalso.
    pose proof (NS _ K0) as N. rewrite forallb_app in N. cbn in N.
    rewrite He in N. cbn in N. rewrite andb_false_r in N. discriminate. }
  assert (forall t0 dialogs, forallb source_event t0 = true ->
            filter is_seed_event (t0 ++ preamble E c dialogs ++ [])
            = [ if is_xpu_available E then ESeedXpu (seed c)
                else ESeedCuda (seed c);
                ESeedTorch (seed c) ]
            /\ (forall t1 e t2,
                  t0 ++ preamble E c dialogs ++ [] = t1 ++ e :: t2 ->
                  is_load_model e = true -> filter is_seed_event t2 = []))
    as SeedFail.
  { intros t0 dialogs K0. split.
    - rewrite !filter_app, (filter_kinds source_event _ t0 K0 S1), P1.
      reflexivity.
    - intros t1 e t2 Ht He. exfalso.
      assert (forallb (fun e => negb (is_load_model e))
                (t0 ++ preamble E c dialogs ++ []) = true) as N.
      { rewrite !forallb_app, (NS _ K0),
          (NP _ (preamble_kinds E c dialogs)). reflexivity. }
      rewrite Ht, forallb_app in N. cbn in N.
      rewrite He in N. cbn in N. rewrite andb_false_r in N. discriminate. }
  destruct (dialog_source E c) as [t0 [dialogs | code | e]];
    cbn [trace_of result_of fst snd] in *.
  - destruct (manual_seed E (seed c)) as [g0 | what0];
      [| exact (SeedFail t0 dialogs Ks)].
    destruct (load_runtime E c) as [t1 [[m tok] | code | e]];
      cbn [trace_of fst] in Hl; subst t1; cbn [trace_of fst].
    + apply Main; [exact Ks | apply generation_driver_kinds].
    + specialize (Main t0 dialogs [] Ks eq_refl).
      now rewrite app_nil_r in Main.
    + specialize (Main t0 dialogs [] Ks eq_refl).
      now rewrite app_nil_r in Main.
  - exact (Fail t0 Ks).
  - exact (Fail t0 Ks).
Qed.

Lemma seeded_once_witness :
  filter is_seed_event
    (trace_of (main (demo_env true [] demo_dialogs "fine") demo_config))
  = [ESeedCuda 42; ESeedTorch 42]
  /\ filter is_seed_event
       (skipn 8 (trace_of (main (demo_env true [] demo_dialogs "fine")
                                demo_config)))
     = [].
Proof.
  split.
  - exact (proj1 (seeded_once_before_the_model_is_loaded
                    (demo_env true [] demo_dialogs "fine") demo_config)).
  - exact (proj2 (seeded_once_before_the_model_is_loaded
                    (demo_env true [] demo_dialogs "fine") demo_config)
             (firstn 7 (trace_of (main (demo_env true [] demo_dialogs "fine")
                                       demo_config)))
             (ELoadModel "llama" None false [])
             (skipn 8 (trace_of (main (demo_env true [] demo_dialogs "fine")
                                      demo_config)))
             eq_refl eq_refl).
Defined.

(** ** The adapter *)

Lemma main_trace_In (E : Env) (c : config) (e : event) :
  In e (trace_of (main E c)) ->
  source_event e = true \/ preamble_event e = true
  \/ In e (trace_of (load_runtime E c)) \/ driver_event e = true.
Proof.
  rewrite main_unfold.
  pose proof (dialog_source_kinds E c) as Ks.
  rewrite forallb_forall in Ks.
  destruct (dialog_source E c) as [t0 [dialogs | code | x]];
    cbn [trace_of fst] in *; [| now left; apply Ks | now left; apply Ks].
  pose proof (preamble_kinds E c dialogs) as Kp.
  rewrite forallb_forall in Kp.
  destruct (manual_seed E (seed c)) as [g0 | what0].
  - destruct (load_runtime E c) as [t1 [[m tok] | code | x]];
      cbn [trace_of fst]; intro H;
      repeat (apply in_app_or in H as [H | H]); auto.
    right. right. right.
    pose proof (generation_driver_kinds E c m tok dialogs g0) as Kd.
    rewrite forallb_forall in Kd. now apply Kd.
  - cbn [trace_of fst]. intro H.
    repeat (apply in_app_or in H as [H | H]); auto; contradiction.
Qed.

Lemma load_runtime_In_main (E : Env) (c : config) (e : event) t0 dialogs g :
  dialog_source E c = (t0, Ret dialogs) ->
  manual_seed E (seed c) = Ok g ->
  In e (trace_of (load_runtime E c)) ->
  In e (trace_of (main E c)).
Proof.
  intros Hs Hg H. rewrite main_unfold, Hs, Hg.
  destruct (load_runtime E c) as [t1 [[m tok] | code | x]];
    cbn [trace_of fst] in *;
    apply in_or_app; right; apply in_or_app; right;
    try (apply in_or_app; left); exact H.
Qed.

Lemma load_runtime_adapter (E : Env) (c : config) (p : string) :
  In (ELoadPeftModel p) (trace_of (load_runtime E c)) ->
  peft_model c = Some p /\ p <> "".
Proof.
  unfold load_runtime.
  destruct (load_model E (model_name c) (quantization c) (use_fast_kernels c)
              (kwargs c)) as [m0 | what]; cbn [call].
  - rewrite bind_Ret. cbn [trace_of fst app].
    intros [H | H]; [discriminate |]. rewrite trace_bind in H.
    apply in_app_or in H as [H | H].
    + destruct (peft_model c) as [q |]; [| contradiction].
      destruct (String.eqb q "") eqn:Hq; [contradiction |].
      apply String.eqb_neq in Hq.
      destruct (load_peft_model E m0 q); cbn in H;
        destruct H as [[= ->] | []]; now split.
    + destruct (result_of _) as [m1 | |]; try contradiction.
      destruct (from_pretrained E (model_name c)); cbn in H;
        destruct H as [H | []]; discriminate.
  - intros [H | []]. discriminate.
Qed.

(** X5. [load_peft_model] is called only for a truthy [peft_model], and on
    that very name: with no [peft_model], or with the empty string, the
    adapter is never loaded.  With a non-empty name it is loaded in every run
    that reads its dialogs, gets past the seeding and loads the model. *)
Theorem adapter_is_loaded_only_for_a_truthy_peft_model (E : Env) (c : config) :
  (forall p, In (ELoadPeftModel p) (trace_of (main E c)) ->
             peft_model c = Some p /\ p <> "")
  /\ (forall t0 dialogs g m0 p,
        dialog_source E c = (t0, Ret dialogs) ->
        manual_seed E (seed c) = Ok g ->
        load_model E (model_name c) (quantization c) (use_fast_kernels c)
                   (kwargs c) = Ok m0 ->
        peft_model c = Some p ->
        p <> "" ->
        In (ELoadPeftModel p) (trace_of (main E c))).
Proof.
  split.
  - intros p H.
    destruct (main_trace_In E c _ H) as [K | [K | [K | K]]];
      try discriminate.
    exact (load_runtime_adapter E c p K).
  - intros t0 dialogs g m0 p Hs Hg Hm Hp Hne.
    apply (load_runtime_In_main E c _ t0 dialogs g Hs Hg).
    unfold load_runtime. rewrite Hm, Hp. cbn [call]. rewrite bind_Ret.
    apply String.eqb_neq in Hne. rewrite Hne.
    cbn [trace_of fst app]. right. rewrite trace_bind.
    apply in_or_app. left.
    destruct (load_peft_model E m0 p); now left.
Qed.

Lemma adapter_witness :
  In (ELoadPeftModel "my-adapter")
     (trace_of (main (demo_env true [] demo_dialogs "fine")
                     (adapter_config (Some "my-adapter")))).
Proof.
  exact (proj2 (adapter_is_loaded_only_for_a_truthy_peft_model
                  (demo_env true [] demo_dialogs "fine")
                  (adapter_config (Some "my-adapter")))
           [EPathExists "prompts.json"; EReadDialogs "prompts.json"]
           demo_dialogs 42 tt "my-adapter" eq_refl eq_refl eq_refl eq_refl
           ltac:(discriminate)).
Defined.

(** ** When the call of [model.generate] cannot be made *)

Lemma main_exit_status (E : Env) (c : config) :
  exit_status (result_of (main E c))
  = match result_of (main E c) with
    | Ret _ => 0
    | _ => 1
    end.
Proof.
  destruct (main E c) as [t [[] | code | e]] eqn:Hm; cbn; try reflexivity.
  rewrite main_unfold in Hm.
  destruct (dialog_source E c) as [t0 [dialogs | code0 | e0]] eqn:Hsrc.
  - destruct (manual_seed E (seed c)) as [g0 | what0]; [| discriminate].
    destruct (load_runtime E c) as [t1 [[m tok] | code1 | e1]] eqn:Hl.
    + destruct (generation_driver E c m tok dialogs g0)
        as [t2 [g' | code2 | e2]] eqn:Hd;
        cbn [trace_of result_of fst snd ending] in Hm; try discriminate.
      injection Hm as _ <-.
      now destruct (generation_driver_Exit E c m tok dialogs _ _ _ Hd).
    + exfalso. exact (load_runtime_no_exit E c t1 code1 Hl).
    + discriminate.
  - injection Hm as _ <-. now destruct (dialog_source_Exit E c t0 code0 Hsrc).
  - discriminate.
Qed.

Lemma driver_loop_cannot_call (E : Env) (c : config) m tok dialogs chats :
  can_call_generate E c = false ->
  forall g idx,
  generated (trace_of (driver_loop E c m tok dialogs g idx chats)) = []
  /\ (chats <> [] ->
      forall g', result_of (driver_loop E c m tok dialogs g idx chats)
                 <> Ret g').
Proof.
  intros Hc g idx. destruct chats as [| chat rest].
  - split; [reflexivity | congruence].
  - rewrite generated_driver_loop_cons, Hc, andb_false_r, driver_loop_cons,
      result_bind.
    destruct (step E c m tok dialogs g idx chat) as [t [g1 | code | e]] eqn:Hs;
      cbn [result_of snd].
    + destruct (step_returns E c m tok dialogs g idx chat t g1 Hs) as [_ H].
      congruence.
    + split; [reflexivity | discriminate].
    + split; [reflexivity | discriminate].
Qed.

(** X6. When the tokens cannot be moved to their device (no [xpu:0] or
    [cuda:0] there) or an extra keyword argument of the command line repeats
    a name written out in the call, no run ever calls [model.generate], and
    every run that has read at least one dialog ends with status 1. *)
Theorem no_generate_without_device_or_on_keyword_clash
    (E : Env) (c : config) :
  can_call_generate E c = false ->
  generated (trace_of (main E c)) = []
  /\ (forall t0 dialogs,
        dialog_source E c = (t0, Ret dialogs) ->
        dialogs <> [] ->
        exit_status (result_of (main E c)) = 1).
Proof.
  intro Hc. split.
  - rewrite main_unfold.
    pose proof (generated_dialog_source E c) as Gs.
    pose proof (generated_load_runtime E c) as Gl.
    destruct (dialog_source E c) as [t0 [dialogs | code | e]];
      cbn [trace_of fst] in *; try exact Gs.
    destruct (manual_seed E (seed c)) as [g0 | what0].
    2:{ cbn [trace_of fst].
        now rewrite !generated_app, Gs, generated_preamble. }
    destruct (load_runtime E c) as [t1 [[m tok] | code | e]];
      cbn [trace_of fst] in *;
      rewrite !generated_app, Gs, Gl, generated_preamble; try reflexivity.
    cbn [app].
    destruct (chats_of E tok dialogs) as [chats |] eqn:Hch.
    + rewrite (generation_driver_ok E c m tok dialogs _ chats Hch).
      cbn [trace_of fst]. rewrite generated_app, generated_template_events.
      apply (driver_loop_cannot_call E c m tok dialogs chats Hc).
    + destruct (generation_driver_fails E c m tok dialogs g0 Hch)
        as [t [what [-> Hg]]].
      exact Hg.
  - intros t0 dialogs Hs Hne. rewrite main_exit_status, main_unfold, Hs.
    destruct (manual_seed E (seed c)) as [g0 | what0]; [| reflexivity].
    destruct (load_runtime E c) as [t1 [[m tok] | code | e]];
      cbn [result_of snd]; try reflexivity.
    destruct (chats_of E tok dialogs) as [chats |] eqn:Hch.
    + rewrite (generation_driver_ok E c m tok dialogs _ chats Hch).
      cbn [result_of snd].
      destruct (mapM_template_ok E tok dialogs chats Hch) as [_ Hl].
      assert (chats <> []) as Hcn.
      { intros ->. destruct dialogs; [congruence | discriminate]. }
      pose proof (proj2 (driver_loop_cannot_call E c m tok dialogs chats Hc
                           g0 0%nat) Hcn) as Hr.
      destruct (result_of (driver_loop E c m tok dialogs g0 0 chats))
        as [g' | |];
        [now contradiction (Hr g') | reflexivity | reflexivity].
    + destruct (generation_driver_fails E c m tok dialogs g0 Hch)
        as [t [what [-> _]]].
      reflexivity.
Qed.

Lemma no_generate_without_device_witness :
  generated
    (trace_of (main (lab_env demo_dialogs
                       (fun d => Ok (map (fun _ => 7) d))
                       (fun g => Ok ([1; 2; 3], g + 1))
                       (fun _ => Ok "fine") false true)
                    demo_config))
  = []
  /\ exit_status
       (result_of (main (lab_env demo_dialogs
                           (fun d => Ok (map (fun _ => 7) d))
                           (fun g => Ok ([1; 2; 3], g + 1))
                           (fun _ => Ok "fine") false true)
                        demo_config))
     = 1.
Proof.
  pose proof (no_generate_without_device_or_on_keyword_clash
                (lab_env demo_dialogs
                   (fun d => Ok (map (fun _ => 7) d))
                   (fun g => Ok ([1; 2; 3], g + 1))
                   (fun _ => Ok "fine") false true)
                demo_config eq_refl) as [H1 H2].
  split; [exact H1 |].
  exact (H2 [EPathExists "prompts.json"; EReadDialogs "prompts.json"]
            demo_dialogs eq_refl ltac:(discriminate)).
Defined.

(** ** A first turn without content *)

Lemma step_KeyError (E : Env) (c : config) m tok dialogs g idx chat t key :
  step E c m tok dialogs g idx chat = (t, Raise (KeyError key)) ->
  key = "content"
  /\ exists turn later,
       nth_error dialogs idx = Some (turn :: later)
       /\ dict_get "content" turn = None.
Proof.
  intro H.
  destruct (step_cases E c m tok dialogs g idx chat)
    as [[what [_ Hs]] | [[cs [_ [_ [e [_ [Hf Hs]]]]]]
        | [[cs [text [_ [_ [_ Hs]]]]] | [cs [text [_ [_ [_ Hs]]]]]]]];
    rewrite Hs in H; try discriminate.
  - injection H as _ ->. unfold first_turn_content in Hf.
    destruct (nth_error dialogs idx) as [[| turn later] |]; try discriminate.
    destruct (dict_get "content" turn) eqn:Hd; [discriminate |].
    injection Hf as <-. split; [reflexivity |]. now exists turn, later.
  - exfalso. injection H as _ Hr.
    destruct (can_call_generate E c) eqn:Hc.
    + rewrite (generate_text_called E c m tok g idx chat Hc) in Hr.
      cbn [result_of snd] in Hr.
      destruct (generate E m g (generate_kwargs E c chat)) as [[o g2] | w];
        [| discriminate].
      destruct (decode E tok o true); discriminate.
    + destruct (generate_text_not_called E c m tok g idx chat Hc)
        as [e [He Hk]].
      rewrite He in Hr. cbn [result_of snd] in Hr.
      destruct Hk as [-> | [msg ->]]; discriminate.
Qed.

Lemma driver_loop_KeyError (E : Env) (c : config) m tok dialogs chats :
  forall g idx t key,
  driver_loop E c m tok dialogs g idx chats = (t, Raise (KeyError key)) ->
  key = "content"
  /\ exists i turn later,
       nth_error dialogs i = Some (turn :: later)
       /\ dict_get "content" turn = None.
Proof.
  induction chats as [| chat rest IH]; intros g idx t key H.
  - discriminate.
  - rewrite driver_loop_cons in H.
    destruct (step E c m tok dialogs g idx chat) as [t1 [g1 | code | e]] eqn:Hs.
    + rewrite bind_Ret in H. injection H as _ Hr.
      apply (IH g1 (S idx)
               (trace_of (driver_loop E c m tok dialogs g1 (S idx) rest)) key).
      rewrite <- Hr. apply surjective_M.
    + discriminate.
    + injection H as _ ->.
      destruct (step_KeyError E c m tok dialogs g idx chat _ _ Hs)
        as [-> [turn [later Hx]]].
      split; [reflexivity |]. now exists idx, turn, later.
Qed.

(** X7. A dialog whose first turn has no ["content"] key ends the iteration
    in [KeyError("content")] before any call of [model.generate]: raised by
    the input check when a checker is enabled, by the echo of the prompt
    (after "User prompt deemed safe." was printed) when none is.  Conversely
    a driver that ends in a [KeyError] had a dialog whose first turn lacks
    that key; a missing key in a later turn never matters. *)
Theorem missing_content_key_is_a_KeyError (E : Env) (c : config)
    (m : model E) (tok : tokenizer E) (dialogs : list Dialog) (g : rng E) :
  (forall g0 idx chat cs turn later,
     enabled_checkers E c = Ok cs ->
     nth_error dialogs idx = Some (turn :: later) ->
     dict_get "content" turn = None ->
     step E c m tok dialogs g0 idx chat
     = (checker_event c :: match cs with
                           | [] => [EPrint "User prompt deemed safe."]
                           | _ :: _ => []
                           end,
        Raise (KeyError "content")))
  /\ (forall key,
        result_of (generation_driver E c m tok dialogs g)
        = Raise (KeyError key) ->
        key = "content"
        /\ exists i turn later,
             nth_error dialogs i = Some (turn :: later)
             /\ dict_get "content" turn = None).
Proof.
  split.
  - intros g0 idx chat cs turn later He Hn Hd.
    assert (prompt_of dialogs idx = None) as Hp
      by (unfold prompt_of; now rewrite Hn).
    destruct (step_no_prompt E c m tok dialogs g0 idx chat cs He Hp)
      as [e [_ [Hf ->]]].
    unfold first_turn_content in Hf. rewrite Hn, Hd in Hf.
    now injection Hf as <-.
  - intros key Hr.
    destruct (chats_of E tok dialogs) as [chats |] eqn:Hc.
    + rewrite (generation_driver_ok E c m tok dialogs g chats Hc) in Hr.
      cbn [result_of snd] in Hr.
      apply (driver_loop_KeyError E c m tok dialogs chats g 0
               (trace_of (driver_loop E c m tok dialogs g 0 chats)) key).
      rewrite <- Hr. apply surjective_M.
    + destruct (generation_driver_fails E c m tok dialogs g Hc)
        as [t [what [Hf _]]].
      rewrite Hf in Hr. discriminate.
Qed.

Lemma missing_content_key_witness :
  step (demo_env true [] [[[("role", "user")]]] "fine") demo_config tt tt
       [[[("role", "user")]; [("role", "assistant"); ("content", "hi")]]]
       42 0 [7; 7]
  = ([EGetSafetyChecker false false true true], Raise (KeyError "content")).
Proof.
  exact (proj1 (missing_content_key_is_a_KeyError
                  (demo_env true [] [[[("role", "user")]]] "fine") demo_config
                  tt tt
                  [[[("role", "user")]; [("role", "assistant"); ("content", "hi")]]]
                  42)
           42 0%nat [7; 7] demo_checkers [("role", "user")]
           [[("role", "assistant"); ("content", "hi")]]
           eq_refl eq_refl eq_refl).
Defined.

(** ** What [model.generate] is called with *)

Lemma In_generated (i : nat) (kw : kwargs_t) (t : list event) :
  In (EGenerate i kw) t -> In i (generated t).
Proof.
  intro H. unfold generated. apply in_flat_map.
  exists (EGenerate i kw). split; [exact H | now left].
Qed.

Lemma step_generate_call (E : Env) (c : config) m tok dialogs g idx chat i kw :
  In (EGenerate i kw) (trace_of (step E c m tok dialogs g idx chat)) ->
  i = idx /\ kw = generate_kwargs E c chat.
Proof.
  intro H.
  destruct (step_cases E c m tok dialogs g idx chat)
    as [[what [_ Hs]] | [[cs [_ [_ [e [_ [_ Hs]]]]]]
        | [[cs [text [_ [_ [_ Hs]]]]] | [cs [text [_ [_ [_ Hs]]]]]]]];
    rewrite Hs in H; cbn [trace_of fst] in H.
  - destruct H as [H | []]. discriminate.
  - destruct H as [H | H]; [discriminate |].
    destruct cs; [destruct H as [H | []]; discriminate | contradiction].
  - apply In_generated in H.
    rewrite generated_cons, generated_app, generated_check_events,
      generated_unsafe_prompt_lines in H.
    contradiction.
  - destruct H as [H | H]; [discriminate |].
    apply in_app_or in H as [H | H].
    { apply In_generated in H. now rewrite generated_check_events in H. }
    apply in_app_or in H as [H | H].
    { apply In_generated in H. contradiction. }
    apply in_app_or in H as [H | H].
    + destruct (can_call_generate E c) eqn:Hc.
      * rewrite (generate_text_called E c m tok g idx chat Hc) in H.
        cbn [trace_of fst] in H.
        destruct H as [H | [H | H]]; [discriminate | | ].
        -- now injection H as <- <-.
        -- destruct (generate E m g (generate_kwargs E c chat)) as [[o g'] |];
             [destruct H as [H | []]; discriminate | contradiction].
      * destruct (generate_text_not_called E c m tok g idx chat Hc)
          as [e [He _]].
        rewrite He in H. destruct H as [H | []]. discriminate.
    + destruct (result_of (generate_text E c m tok g idx chat))
        as [[o g'] | |]; try contradiction.
      apply In_generated in H.
      rewrite generated_app, generated_check_events, generated_output_lines in H.
      contradiction.
Qed.

Lemma driver_loop_generate_call (E : Env) (c : config) m tok dialogs chats :
  forall g idx i kw,
  In (EGenerate i kw) (trace_of (driver_loop E c m tok dialogs g idx chats)) ->
  exists chat,
    (idx <= i)%nat
    /\ nth_error chats (i - idx) = Some chat
    /\ kw = generate_kwargs E c chat.
Proof.
  induction chats as [| chat rest IH]; intros g idx i kw H.
  - contradiction.
  - rewrite driver_loop_cons, trace_bind in H. apply in_app_or in H as [H | H].
    + destruct (step_generate_call E c m tok dialogs g idx chat i kw H)
        as [-> ->].
      exists chat. rewrite Nat.sub_diag. repeat split. apply Nat.le_refl.
    + destruct (result_of (step E c m tok dialogs g idx chat)) as [g1 | |];
        try contradiction.
      destruct (IH g1 (S idx) i kw H) as [ch [Hle [Hn ->]]].
      exists ch. split; [lia |]. split; [| reflexivity].
      replace (i - idx)%nat with (S (i - S idx)) by lia. exact Hn.
Qed.

Lemma chats_of_nth (E : Env) (tok : tokenizer E) (dialogs : list Dialog) :
  forall chats i chat,
  chats_of E tok dialogs = Some chats ->
  nth_error chats i = Some chat ->
  exists dialog,
    nth_error dialogs i = Some dialog
    /\ apply_chat_template E tok dialog = Ok chat.
Proof.
  induction dialogs as [| d rest IH]; intros chats i chat Hc Hn.
  - injection Hc as <-. now destruct i.
  - cbn [chats_of] in Hc.
    destruct (apply_chat_template E tok d) as [ch |] eqn:Ht; [| discriminate].
    destruct (chats_of E tok rest) as [chs |]; [| discriminate].
    injection Hc as <-. destruct i as [| i].
    + injection Hn as <-. now exists d.
    + exact (IH chs i chat eq_refl Hn).
Qed.

(** X8. Every call of [model.generate] made for dialog [i] is made on the
    chat template of dialog [i] itself: [input_ids] is the one-row tensor of
    that token list on the device, [attention_mask] is a tensor of ones of
    the same shape that stays on the CPU, and the sampling parameters are
    those of the command line, the same for every dialog, followed by the
    extra keyword arguments. *)
Theorem generate_runs_on_the_template_of_its_dialog (E : Env) (c : config)
    (m : model E) (tok : tokenizer E) (dialogs : list Dialog) (g : rng E)
    (i : nat) (kw : kwargs_t) :
  In (EGenerate i kw) (trace_of (generation_driver E c m tok dialogs g)) ->
  exists dialog chat,
    nth_error dialogs i = Some dialog
    /\ apply_chat_template E tok dialog = Ok chat
    /\ kw = [ ("input_ids",
               VTensor {| t_rows := [chat]; t_device := device E |});
              ("attention_mask",
               VTensor {| t_rows := [map (fun _ => 1) chat];
                          t_device := "cpu" |});
              ("max_new_tokens", VInt (max_new_tokens c));
              ("do_sample", VBool (do_sample c));
              ("top_p", VFloat (top_p c));
              ("temperature", VFloat (temperature c));
              ("use_cache", VBool (use_cache c));
              ("top_k", VInt (top_k c));
              ("repetition_penalty", VFloat (repetition_penalty c));
              ("length_penalty", VInt (length_penalty c)) ]
            ++ kwargs c.
Proof.
  intro H. destruct (chats_of E tok dialogs) as [chats |] eqn:Hc.
  - rewrite (generation_driver_ok E c m tok dialogs g chats Hc) in H.
    cbn [trace_of fst] in H. apply in_app_or in H as [H | H].
    + apply in_map_iff in H as [d [Hd _]]. discriminate.
    + destruct (driver_loop_generate_call E c m tok dialogs chats g 0 i kw H)
        as [chat [_ [Hn ->]]].
      rewrite Nat.sub_0_r in Hn.
      destruct (chats_of_nth E tok dialogs chats i chat Hc Hn)
        as [dialog [Hd Ht]].
      exists dialog, chat. repeat split; assumption.
  - destruct (generation_driver_fails E c m tok dialogs g Hc)
      as [t [what [Hf Hg]]].
    rewrite Hf in H. cbn [trace_of fst] in H.
    apply In_generated in H. rewrite Hg in H. contradiction.
Qed.

Lemma generate_runs_on_the_template_witness :
  exists dialog chat,
    nth_error demo_dialogs 0 = Some dialog
    /\ apply_chat_template (demo_env true [] demo_dialogs "fine") tt dialog
       = Ok chat
    /\ generate_kwargs (demo_env true [] demo_dialogs "fine") demo_config [7]
       = [ ("input_ids",
            VTensor {| t_rows := [chat];
                       t_device := device (demo_env true [] demo_dialogs "fine") |});
           ("attention_mask",
            VTensor {| t_rows := [map (fun _ => 1) chat]; t_device := "cpu" |});
           ("max_new_tokens", VInt 256);
           ("do_sample", VBool true);
           ("top_p", VFloat 1.0%float);
           ("temperature", VFloat 1.0%float);
           ("use_cache", VBool true);
           ("top_k", VInt 50);
           ("repetition_penalty", VFloat 1.0%float);
           ("length_penalty", VInt 1) ]
         ++ [].
Proof.
  assert (In (EGenerate 0 (generate_kwargs
                             (demo_env true [] demo_dialogs "fine")
                             demo_config [7]))
             (trace_of (generation_driver
                          (demo_env true [] demo_dialogs "fine") demo_config
                          tt tt demo_dialogs 42))) as Hin.
  { cbn. do 10 right. now left. }
  exact (generate_runs_on_the_template_of_its_dialog
           (demo_env true [] demo_dialogs "fine") demo_config tt tt
           demo_dialogs 42 0%nat _ Hin).
Defined.

(** ** A dialog that cannot be templated *)

Lemma mapM_template_first_failure (E : Env) (tok : tokenizer E)
    (dialogs : list Dialog) : forall n dialog what,
  nth_error dialogs n = Some dialog ->
  apply_chat_template E tok dialog = Err what ->
  (forall k d, (k < n)%nat -> nth_error dialogs k = Some d ->
               exists chat, apply_chat_template E tok d = Ok chat) ->
  mapM (fun dialog => call (EApplyChatTemplate dialog)
                           (apply_chat_template E tok dialog)) dialogs
  = (map EApplyChatTemplate (firstn (S n) dialogs), Raise (LibraryError what)).
Proof.
  induction dialogs as [| d rest IH]; intros n dialog what Hn He Hok.
  - now destruct n.
  - destruct n as [| n].
    + injection Hn as ->. cbn [mapM]. rewrite He. reflexivity.
    + destruct (Hok 0%nat d ltac:(lia) eq_refl) as [chat Hc].
      cbn [mapM]. rewrite Hc. cbn [call]. rewrite bind_Ret.
      rewrite (IH n dialog what Hn He).
      * reflexivity.
      * intros k d' Hk Hd. apply (Hok (S k) d'); [lia | exact Hd].
Qed.

(** X9. All dialogs are templated before the first one is screened.  When
    dialog [n] is the first that the tokenizer cannot template, the run of
    the driver consists of the [n + 1] template calls and ends in the
    tokenizer's exception: no safety checker is built, nothing is printed
    and nothing is generated, not even for the dialogs before [n]. *)
Theorem untemplatable_dialog_aborts_before_any_screening (E : Env)
    (c : config) (m : model E) (tok : tokenizer E) (dialogs : list Dialog)
    (g : rng E) (n : nat) (dialog : Dialog) (what : string) :
  nth_error dialogs n = Some dialog ->
  apply_chat_template E tok dialog = Err what ->
  (forall k d, (k < n)%nat -> nth_error dialogs k = Some d ->
               exists chat, apply_chat_template E tok d = Ok chat) ->
  generation_driver E c m tok dialogs g
  = (map EApplyChatTemplate (firstn (S n) dialogs), Raise (LibraryError what)).
Proof.
  intros Hn He Hok. unfold generation_driver.
  now rewrite (mapM_template_first_failure E tok dialogs n dialog what Hn He Hok).
Qed.

Lemma untemplatable_dialog_witness :
  generation_driver
    (lab_env []
       (fun d => match d with
                 | [] => Err "TemplateError"
                 | _ :: _ => Ok (map (fun _ => 7) d)
                 end)
       (fun g => Ok ([1; 2; 3], g + 1)) (fun _ => Ok "fine") true true)
    demo_config tt tt
    [ [[("role", "user"); ("content", "hello")]]; []; [[("role", "user")]] ] 42
  = ([ EApplyChatTemplate [[("role", "user"); ("content", "hello")]];
       EApplyChatTemplate [] ],
     Raise (LibraryError "TemplateError")).
Proof.
  apply (untemplatable_dialog_aborts_before_any_screening
           (lab_env []
              (fun d => match d with
                        | [] => Err "TemplateError"
                        | _ :: _ => Ok (map (fun _ => 7) d)
                        end)
              (fun g => Ok ([1; 2; 3], g + 1)) (fun _ => Ok "fine") true true)
           demo_config tt tt
           [ [[("role", "user"); ("content", "hello")]]; []; [[("role", "user")]] ]
           42 1%nat [] "TemplateError" eq_refl eq_refl).
  intros k d Hk Hd. destruct k as [| k]; [| lia].
  injection Hd as <-. now exists [7].
Defined.

(** ** An empty list of dialogs *)

(** X10. An empty list of dialogs is accepted: when the seed is taken and
    the model and the tokenizer load, the run echoes the list, seeds, loads
    the model and the tokenizer, builds no checker, generates nothing and
    ends with status 0. *)
Theorem empty_dialog_list_loads_the_model_and_exits_0 (E : Env) (c : config)
    (t0 t1 : list event) (g : rng E) (m : model E) (tok : tokenizer E) :
  dialog_source E c = (t0, Ret []) ->
  manual_seed E (seed c) = Ok g ->
  load_runtime E c = (t1, Ret (m, tok)) ->
  main E c = (t0 ++ preamble E c [] ++ t1, Ret tt)
  /\ exit_status (result_of (main E c)) = 0
  /\ loads_model (trace_of (main E c)) = true
  /\ filter is_get_safety_checker (trace_of (main E c)) = []
  /\ generated (trace_of (main E c)) = [].
Proof.
  intros Hs Hg Hl.
  assert (main E c = (t0 ++ preamble E c [] ++ t1, Ret tt)) as Hm.
  { rewrite main_unfold, Hs, Hg, Hl. cbn. now rewrite app_nil_r. }
  pose proof (dialog_source_kinds E c) as Ks. rewrite Hs in Ks.
  pose proof (load_runtime_kinds E c) as Kl. rewrite Hl in Kl.
  destruct (load_runtime_trace E c) as [rest [Ht _]]. rewrite Hl in Ht.
  cbn [trace_of fst] in *.
  rewrite Hm. cbn [trace_of result_of fst snd exit_status].
  split; [reflexivity | split; [reflexivity | split; [| split]]].
  - unfold loads_model. rewrite !existsb_app, Ht. cbn.
    now rewrite !orb_true_r.
  - rewrite !filter_app.
    rewrite (filter_kinds source_event _ t0 Ks)
      by (intros []; cbn; congruence).
    rewrite (filter_kinds preamble_event _ _ (preamble_kinds E c []))
      by (intros []; cbn; congruence).
    rewrite (filter_kinds load_event _ t1 Kl)
      by (intros []; cbn; congruence).
    reflexivity.
  - pose proof (generated_dialog_source E c) as Gs. rewrite Hs in Gs.
    pose proof (generated_load_runtime E c) as Gl. rewrite Hl in Gl.
    cbn [trace_of fst] in *.
    now rewrite !generated_app, Gs, Gl, generated_preamble.
Qed.

Lemma empty_dialog_list_witness :
  main (demo_env false ["[]"] demo_dialogs "fine") (default_config "llama")
  = ([ EStdinIsatty; EStdinReadlines; EJsonLoads "[]";
       EPrint ("User dialogs:" ++ nl ++ "<dialogs>")%string; EPrint separator;
       EIsXpuAvailable; ESeedCuda 42; ESeedTorch 42;
       ELoadModel "llama" None false []; EFromPretrained "llama" ],
     Ret tt).
Proof.
  exact (proj1 (empty_dialog_list_loads_the_model_and_exits_0
                  (demo_env false ["[]"] demo_dialogs "fine")
                  (default_config "llama")
                  [EStdinIsatty; EStdinReadlines; EJsonLoads "[]"]
                  [ELoadModel "llama" None false []; EFromPretrained "llama"]
                  42 tt tt eq_refl eq_refl eq_refl)).
Defined.

(** ** How often the checkers run *)














(** ** One source of dialogs *)

Lemma main_filter (E : Env) (c : config) (q : event -> bool) :
  (forall e, preamble_event e = true -> q e = false) ->
  (forall e, load_event e = true -> q e = false) ->
  (forall e, driver_event e = true -> q e = false) ->
  filter q (trace_of (main E c)) = filter q (trace_of (dialog_source E c)).
Proof.
  intros Hp Hl Hd. rewrite main_unfold.
  pose proof (load_runtime_kinds E c) as Kl.
  destruct (dialog_source E c) as [t0 [dialogs | code | e]];
    [| reflexivity | reflexivity].
  destruct (manual_seed E (seed c)) as [g0 | what0].
  - destruct (load_runtime E c) as [t1 [[m tok] | code | e]];
      cbn [trace_of fst] in *; rewrite !filter_app,
        (filter_kinds preamble_event q _ (preamble_kinds E c dialogs) Hp),
        (filter_kinds load_event q t1 Kl Hl); cbn [app];
      rewrite ?(filter_kinds driver_event q _
                  (generation_driver_kinds E c m tok dialogs g0) Hd);
      now rewrite ?app_nil_r.
  - cbn [trace_of fst].
    rewrite !filter_app,
      (filter_kinds preamble_event q _ (preamble_kinds E c dialogs) Hp).
    cbn [app filter]. now rewrite ?app_nil_r.
Qed.

(** X12. The dialogs come from one source.  With [prompt_file] given,
    standard input is never consulted, piped or not, and the dialogs are the
    ones read from the file; a file that exists but cannot be read ends the
    run in the reader's exception, with nothing printed.  Without
    [prompt_file], the file system is never consulted. *)
Theorem prompt_file_takes_precedence_over_stdin (E : Env) (c : config) :
  (forall path,
     prompt_file c = Some path ->
     filter is_stdin_event (trace_of (main E c)) = []
     /\ (path_exists E path = true ->
         forall dialogs,
           read_dialogs_from_file E path = Ok dialogs ->
           dialog_source E c
           = ([EPathExists path; EReadDialogs path], Ret dialogs))
     /\ (path_exists E path = true ->
         forall what,
           read_dialogs_from_file E path = Err what ->
           main E c
           = ([EPathExists path; EReadDialogs path],
              Raise (LibraryError what))))
  /\ (prompt_file c = None ->
      filter is_file_event (trace_of (main E c)) = []).
Proof.
  split.
  - intros path Hf. split; [| split].
    + rewrite main_filter by (intros []; cbn; congruence).
      unfold dialog_source. rewrite Hf.
      destruct (path_exists E path); [| reflexivity].
      now destruct (read_dialogs_from_file E path).
    + intros Hx dialogs Hr. unfold dialog_source. now rewrite Hf, Hx, Hr.
    + intros Hx what Hr. unfold main, dialog_source. now rewrite Hf, Hx, Hr.
  - intro Hf. rewrite main_filter by (intros []; cbn; congruence).
    unfold dialog_source. rewrite Hf.
    destruct (stdin_isatty E); [reflexivity |]. cbn [negb].
    now destruct (json_loads E _).
Qed.

Lemma prompt_file_precedence_witness :
  filter is_stdin_event
    (trace_of (main (demo_env false ["[]"] demo_dialogs "fine") demo_config))
  = []
  /\ dialog_source (demo_env false ["[]"] demo_dialogs "fine") demo_config
     = ([EPathExists "prompts.json"; EReadDialogs "prompts.json"],
        Ret demo_dialogs).
Proof.
  pose proof (proj1 (prompt_file_takes_precedence_over_stdin
                       (demo_env false ["[]"] demo_dialogs "fine") demo_config)
                "prompts.json" eq_refl) as [H1 [H2 _]].
  split; [exact H1 | exact (H2 eq_refl demo_dialogs eq_refl)].
Defined.

(** ** A generation that fails *)

(** X13. There is no recovery inside the batch: when the loop has come to
    dialog [i], its prompt passes, and [model.generate] throws, the run of
    the driver ends there with that exception.  The output of dialog [i] is
    neither decoded nor screened, and no later dialog is looked at. *)
Theorem failed_generation_aborts_the_run (E : Env) (c : config)
    (m : model E) (tok : tokenizer E) (dialogs : list Dialog) (g gi : rng E)
    (chats : list (list Z)) (i : nat) (chat : list Z) (cs : list checker)
    (turn : Turn) (later : Dialog) (text what : string) (t : list event) :
  chats_of E tok dialogs = Some chats ->
  driver_loop E c m tok dialogs g 0 (firstn i chats) = (t, Ret gi) ->
  nth_error chats i = Some chat ->
  enabled_checkers E c = Ok cs ->
  nth_error dialogs i = Some (turn :: later) ->
  dict_get "content" turn = Some text ->
  Forall (fun check => sr_is_safe (check text) = true) cs ->
  can_call_generate E c = true ->
  generate E m gi (generate_kwargs E c chat) = Err what ->
  generation_driver E c m tok dialogs g
  = (map EApplyChatTemplate dialogs ++ t
       ++ checker_event c
       :: map (fun k => ECheck k text) (seq 0 (length cs))
       ++ safe_prompt_lines text
       ++ [EIsXpuAvailable; EGenerate i (generate_kwargs E c chat)],
     Raise (LibraryError what)).
Proof.
  intros Hc Hreach Hn He Hnth Hd Hsafe Hcall Hgen.
  pose proof (prompt_of_first_turn _ _ _ _ _ Hnth Hd) as Hp.
  apply all_safe_Forall in Hsafe.
  rewrite (generation_driver_ok E c m tok dialogs g chats Hc).
  assert (i < length chats)%nat as Hi by (apply nth_error_Some; congruence).
  destruct (driver_loop_reach E c m tok dialogs chats g i t gi Hi Hreach)
    as [chat' [rest [Hn' ->]]].
  rewrite Hn in Hn'. injection Hn' as <-.
  cbn [trace_of result_of fst snd].
  rewrite driver_loop_cons,
    (step_passes E c m tok dialogs gi i chat cs text He Hp Hsafe),
    (generate_text_called E c m tok gi i chat Hcall), Hgen.
  cbn [trace_of result_of fst snd]. rewrite bind_Raise.
  cbn [trace_of result_of fst snd]. now rewrite app_nil_r.
Qed.

Lemma failed_generation_witness :
  generation_driver
    (lab_env demo_dialogs (fun d => Ok (map (fun _ => 7) d))
       (fun g => Err "OutOfMemoryError") (fun _ => Ok "fine") true true)
    demo_config tt tt demo_dialogs 42
  = (map EApplyChatTemplate demo_dialogs
       ++ []
       ++ [ EGetSafetyChecker false false true true;
            ECheck 0 "hello"; ECheck 1 "hello";
            EPrint "User prompt deemed safe.";
            EPrint ("User prompt:" ++ nl ++ " hello")%string;
            EPrint separator;
            EIsXpuAvailable;
            EGenerate 0
              (generate_kwargs
                 (lab_env demo_dialogs (fun d => Ok (map (fun _ => 7) d))
                    (fun g => Err "OutOfMemoryError") (fun _ => Ok "fine")
                    true true)
                 demo_config [7]) ],
     Raise (LibraryError "OutOfMemoryError")).
Proof.
  assert (Forall (fun check : checker => sr_is_safe (check "hello") = true)
                 demo_checkers) as Hall
    by (repeat constructor).
  exact (failed_generation_aborts_the_run
           (lab_env demo_dialogs (fun d => Ok (map (fun _ => 7) d))
              (fun g => Err "OutOfMemoryError") (fun _ => Ok "fine") true true)
           demo_config tt tt demo_dialogs 42 42 [[7]; [7; 7]; [7]] 0%nat [7]
           demo_checkers [("role", "user"); ("content", "hello")] [] "hello"
           "OutOfMemoryError" []
           eq_refl eq_refl eq_refl eq_refl eq_refl eq_refl Hall eq_refl eq_refl).
Defined.

(** ** What is loaded *)

Lemma load_runtime_tokenizer (E : Env) (c : config) (n : string) :
  In (EFromPretrained n) (trace_of (load_runtime E c)) -> n = model_name c.
Proof.
  unfold load_runtime.
  destruct (load_model E (model_name c) (quantization c) (use_fast_kernels c)
              (kwargs c)) as [m0 | what]; cbn [call].
  - rewrite bind_Ret. cbn [trace_of fst app].
    intros [H | H]; [discriminate |]. rewrite trace_bind in H.
    apply in_app_or in H as [H | H].
    + destruct (peft_model c) as [q |]; [| contradiction].
      destruct (String.eqb q ""); [contradiction |].
      destruct (load_peft_model E m0 q); cbn in H;
        destruct H as [H | []]; discriminate.
    + destruct (result_of _) as [m1 | |]; try contradiction.
      destruct (from_pretrained E (model_name c)); cbn in H;
        destruct H as [[= ->] | []]; reflexivity.
  - intros [H | []]. discriminate.
Qed.

(** X14. Whatever is loaded is loaded under [model_name]: [load_model] gets
    the model name, the quantization mode, the fast-kernel flag and the
    extra keyword arguments of the command line, and the tokenizer is loaded
    from the name of the base model, with or without an adapter, never from
    the adapter's. *)
Theorem model_and_tokenizer_are_loaded_by_model_name (E : Env) (c : config) :
  (forall n q f kw,
     In (ELoadModel n q f kw) (trace_of (main E c)) ->
     n = model_name c /\ q = quantization c /\ f = use_fast_kernels c
     /\ kw = kwargs c)
  /\ (forall n, In (EFromPretrained n) (trace_of (main E c)) ->
                n = model_name c).
Proof.
  split.
  - intros n q f kw H.
    destruct (main_trace_In E c _ H) as [K | [K | [K | K]]];
      try discriminate.
    destruct (load_runtime_trace E c) as [rest [Ht Kr]]. rewrite Ht in K.
    destruct K as [K | K].
    + now injection K as <- <- <- <-.
    + rewrite forallb_forall in Kr. specialize (Kr _ K). discriminate.
  - intros n H.
    destruct (main_trace_In E c _ H) as [K | [K | [K | K]]];
      try discriminate.
    exact (load_runtime_tokenizer E c n K).
Qed.

Lemma tokenizer_name_witness :
  "llama" = model_name (adapter_config (Some "my-adapter")).
Proof.
  assert (In (EFromPretrained "llama")
             (trace_of (main (demo_env true [] demo_dialogs "fine")
                             (adapter_config (Some "my-adapter"))))) as Hin.
  { cbn. do 9 right. now left. }
  exact (proj2 (model_and_tokenizer_are_loaded_by_model_name
                  (demo_env true [] demo_dialogs "fine")
                  (adapter_config (Some "my-adapter")))
           "llama" Hin).
Defined.

(** ** A seed that is refused *)

(** X15. When [torch.manual_seed] throws for the seed of the command line,
    a run that has read its dialogs ends there: the dialogs were echoed and
    both seeding calls were made, the model is never asked to load, nothing
    is screened or generated, and the exit status is 1. *)
Theorem refused_seed_ends_the_run_before_the_model_is_loaded (E : Env)
    (c : config) (t0 : list event) (dialogs : list Dialog) (what : string) :
  dialog_source E c = (t0, Ret dialogs) ->
  manual_seed E (seed c) = Err what ->
  main E c
  = (t0 ++ [ EPrint ("User dialogs:" ++ nl ++ str_dialogs E dialogs)%string;
             EPrint separator;
             EIsXpuAvailable;
             if is_xpu_available E then ESeedXpu (seed c)
             else ESeedCuda (seed c);
             ESeedTorch (seed c) ],
     Raise (LibraryError what))
  /\ exit_status (result_of (main E c)) = 1
  /\ loads_model (trace_of (main E c)) = false
  /\ filter is_screening_event (trace_of (main E c)) = []
  /\ generated (trace_of (main E c)) = [].
Proof.
  intros Hs Hg.
  assert (main E c = (t0 ++ preamble E c dialogs, Raise (LibraryError what)))
    as Hm by (rewrite main_unfold, Hs, Hg; now rewrite app_nil_r).
  pose proof (dialog_source_kinds E c) as Ks. rewrite Hs in Ks.
  pose proof (generated_dialog_source E c) as Gs. rewrite Hs in Gs.
  cbn [trace_of fst] in *.
  rewrite Hm. cbn [trace_of result_of fst snd exit_status].
  split; [reflexivity | split; [reflexivity | split; [| split]]].
  - unfold loads_model. rewrite existsb_app.
    change (existsb is_load_model t0
            || existsb is_load_model (preamble E c dialogs) = false).
    apply orb_false_iff. split.
    + destruct (existsb is_load_model t0) eqn:Hx; [| reflexivity].
      apply existsb_exists in Hx as [e [Hin He]].
      rewrite forallb_forall in Ks. specialize (Ks e Hin). now destruct e.
    + unfold preamble. now destruct (is_xpu_available E).
  - rewrite filter_app.
    rewrite (filter_kinds source_event _ t0 Ks)
      by (intros []; cbn; congruence).
    rewrite (filter_kinds preamble_event _ _ (preamble_kinds E c dialogs))
      by (intros []; cbn; congruence).
    reflexivity.
  - now rewrite generated_app, Gs, generated_preamble.
Qed.

Lemma refused_seed_witness :
  main (demo_env true [] demo_dialogs "fine")
       (with_seed (2 ^ 64) demo_config)
  = ([ EPathExists "prompts.json"; EReadDialogs "prompts.json";
       EPrint ("User dialogs:" ++ nl ++ "<dialogs>")%string; EPrint separator;
       EIsXpuAvailable; ESeedCuda (2 ^ 64); ESeedTorch (2 ^ 64) ],
     Raise (LibraryError "RuntimeError: Overflow when unpacking long")).
Proof.
  exact (proj1 (refused_seed_ends_the_run_before_the_model_is_loaded
                  (demo_env true [] demo_dialogs "fine")
                  (with_seed (2 ^ 64) demo_config)
                  [EPathExists "prompts.json"; EReadDialogs "prompts.json"]
                  demo_dialogs "RuntimeError: Overflow when unpacking long"
                  eq_refl eq_refl)).
Defined.
